(** * Session identifiers and the Redis session store of bryoco/dazzling

    A shallow embedding of package [session]: the signer and validator of
    session identifiers (NewSessionID, GenerateRandomBytes,
    GenerateRandomHMAC, DecodeSessionID, IdHasMutated, ValidateID), the
    Redis-backed store (Save, Get, Delete, getRedisKey) and the sessions
    over HTTP (BeginSession, GetSessionID, GetState, EndSession), together
    with the parts of the libraries they call: crypto/sha256, crypto/hmac,
    crypto/subtle, crypto/rand, encoding/base64 (URLEncoding), strings,
    net/http and go-redis.

    Conventions.  A Go [[]byte] is a [list Z] whose elements lie in
    [0, 256); a Go [string] is a Rocq [string]; a [uint32] is a [Z] reduced
    modulo [2^32] after every operation that can overflow. *)

From Stdlib Require Import ZArith List Ascii String Lia Bool.
From stdpp Require Import gmap strings.
Import ListNotations.

Local Open Scope Z_scope.

(** ** Bytes and strings *)

Definition is_byte (b : Z) : Prop := 0 <= b < 256.

Definition bytes_ok (l : list Z) : Prop := Forall is_byte l.

Definition byte_of_ascii (c : ascii) : Z := Z.of_N (N_of_ascii c).

(** The conversion [[]byte(s)]. *)
Fixpoint bytes_of_string (s : string) : list Z :=
  match s with
  | EmptyString => []
  | String c s' => byte_of_ascii c :: bytes_of_string s'
  end.

(** ** crypto/sha256 *)

Module SHA256.

Definition Size : nat := 32.
Definition BlockSize : nat := 64.

Definition u32 (x : Z) : Z := x mod 2 ^ 32.

(** [bits.RotateLeft32(x, -k)] on a 32-bit word. *)
Definition rotr (k x : Z) : Z :=
  u32 (Z.lor (Z.shiftr x k) (Z.shiftl x (32 - k))).

(** [^x] on a 32-bit word. *)
Definition not32 (x : Z) : Z := Z.lxor x 0xffffffff.

(** The [n] 32-bit words of [x], most significant first. *)
Fixpoint be_words (n : nat) (x : Z) : list Z :=
  match n with
  | O => []
  | S n' => u32 (Z.shiftr x (32 * Z.of_nat n')) :: be_words n' x
  end.

(** The table [_K] of sha256block.go, eight words to a line. *)
Definition _K : list Z :=
  flat_map (be_words 8)
    [ 0x428a2f9871374491b5c0fbcfe9b5dba53956c25b59f111f1923f82a4ab1c5ed5;
      0xd807aa9812835b01243185be550c7dc372be5d7480deb1fe9bdc06a7c19bf174;
      0xe49b69c1efbe47860fc19dc6240ca1cc2de92c6f4a7484aa5cb0a9dc76f988da;
      0x983e5152a831c66db00327c8bf597fc7c6e00bf3d5a7914706ca635114292967;
      0x27b70a852e1b21384d2c6dfc53380d13650a7354766a0abb81c2c92e92722c85;
      0xa2bfe8a1a81a664bc24b8b70c76c51a3d192e819d6990624f40e3585106aa070;
      0x19a4c1161e376c082748774c34b0bcb5391c0cb34ed8aa4a5b9cca4f682e6ff3;
      0x748f82ee78a5636f84c878148cc7020890befffaa4506cebbef9a3f7c67178f2 ].

(** The chaining value [dig.h] of a digest. *)
Record digest : Type := mkDigest {
  h0 : Z; h1 : Z; h2 : Z; h3 : Z; h4 : Z; h5 : Z; h6 : Z; h7 : Z
}.

Definition init : digest :=
  mkDigest 0x6a09e667 0xbb67ae85 0x3c6ef372 0xa54ff53a
           0x510e527f 0x9b05688c 0x1f83d9ab 0x5be0cd19.

(** Big-endian load of the sixteen words of one chunk. *)
Fixpoint load_words (n : nat) (p : list Z) : list Z :=
  match n with
  | O => []
  | S n' =>
      match p with
      | b0 :: b1 :: b2 :: b3 :: p' =>
          Z.lor (Z.lor (Z.lor (Z.shiftl b0 24) (Z.shiftl b1 16))
                       (Z.shiftl b2 8)) b3
          :: load_words n' p'
      | _ => []
      end
  end.

(** The message schedule, kept most recent word first: with [w[i-1]] at
    the head, [w[i-2]], [w[i-7]], [w[i-15]] and [w[i-16]] sit at
    positions 1, 6, 14 and 15. *)
Definition next_word (rw : list Z) : Z :=
  let v1 := nth 1 rw 0 in
  let t1 := Z.lxor (Z.lxor (rotr 17 v1) (rotr 19 v1)) (Z.shiftr v1 10) in
  let v2 := nth 14 rw 0 in
  let t2 := Z.lxor (Z.lxor (rotr 7 v2) (rotr 18 v2)) (Z.shiftr v2 3) in
  u32 (t1 + nth 6 rw 0 + t2 + nth 15 rw 0).

Fixpoint extend (n : nat) (rw : list Z) : list Z :=
  match n with
  | O => rw
  | S n' => extend n' (next_word rw :: rw)
  end.

Definition schedule (p : list Z) : list Z :=
  rev (extend 48 (rev (load_words 16 p))).

(** One iteration of the 64-round loop on the working variables. *)
Definition round (s : digest) (k w : Z) : digest :=
  let '(mkDigest a b c d e f g h) := s in
  let t1 := u32 (h + Z.lxor (Z.lxor (rotr 6 e) (rotr 11 e)) (rotr 25 e)
                   + Z.lxor (Z.land e f) (Z.land (not32 e) g) + k + w) in
  let t2 := u32 (Z.lxor (Z.lxor (rotr 2 a) (rotr 13 a)) (rotr 22 a)
                 + Z.lxor (Z.lxor (Z.land a b) (Z.land a c)) (Z.land b c)) in
  mkDigest (u32 (t1 + t2)) a b c (u32 (d + t1)) e f g.

Fixpoint rounds (s : digest) (ks ws : list Z) : digest :=
  match ks, ws with
  | k :: ks', w :: ws' => rounds (round s k w) ks' ws'
  | _, _ => s
  end.

(** [blockGeneric] on one chunk of 64 bytes. *)
Definition block (d : digest) (p : list Z) : digest :=
  let s := rounds d _K (schedule p) in
  mkDigest (u32 (h0 d + h0 s)) (u32 (h1 d + h1 s))
           (u32 (h2 d + h2 s)) (u32 (h3 d + h3 s))
           (u32 (h4 d + h4 s)) (u32 (h5 d + h5 s))
           (u32 (h6 d + h6 s)) (u32 (h7 d + h7 s)).

(** [blockGeneric] on [n] consecutive chunks. *)
Fixpoint blocks (n : nat) (d : digest) (p : list Z) : digest :=
  match n with
  | O => d
  | S n' => blocks n' (block d (firstn 64 p)) (skipn 64 p)
  end.

(** Big-endian store of a word of [w] bytes. *)
Fixpoint be_bytes (w : nat) (x : Z) : list Z :=
  match w with
  | O => []
  | S w' => (Z.shiftr x (8 * Z.of_nat w')) mod 256 :: be_bytes w' x
  end.

(** The padding appended by [checkSum]: 0x80, zeros up to 56 modulo 64,
    then the length in bits as a 64-bit big-endian integer. *)
Definition padding (len : nat) : list Z :=
  let r := (len mod 64)%nat in
  let zeros := (if (r <? 56)%nat then 55 - r else 64 + 55 - r)%nat in
  0x80 :: repeat 0 zeros ++ be_bytes 8 (8 * Z.of_nat len).

Definition digest_bytes (d : digest) : list Z :=
  be_bytes 4 (h0 d) ++ be_bytes 4 (h1 d) ++ be_bytes 4 (h2 d) ++
  be_bytes 4 (h3 d) ++ be_bytes 4 (h4 d) ++ be_bytes 4 (h5 d) ++
  be_bytes 4 (h6 d) ++ be_bytes 4 (h7 d).

(** [sha256.Sum256(data)], also [h.Write(data); h.Sum(nil)] on a fresh
    hash. *)
Definition Sum256 (data : list Z) : list Z :=
  let p := data ++ padding (length data) in
  digest_bytes (blocks (length p / 64) init p).

End SHA256.

(** ** crypto/hmac *)

Module HMAC.

(** The state of [hmac.New(sha256.New, key)]: the two pads and the bytes
    written to the inner hash after the inner pad. *)
Record hmac : Type := mkHmac {
  ipad : list Z;
  opad : list Z;
  written : list Z
}.

Definition pad_key (key : list Z) : list Z :=
  let key := if (SHA256.BlockSize <? length key)%nat
             then SHA256.Sum256 key else key in
  key ++ repeat 0 (SHA256.BlockSize - length key).

Definition New (key : list Z) : hmac :=
  let k := pad_key key in
  mkHmac (map (fun b => Z.lxor b 0x36) k)
         (map (fun b => Z.lxor b 0x5c) k)
         [].

Definition Write (h : hmac) (p : list Z) : hmac :=
  mkHmac (ipad h) (opad h) (written h ++ p).

(** [h.Sum(in)]: the digest appended to [in]. *)
Definition Sum (h : hmac) (inb : list Z) : list Z :=
  let inner := SHA256.Sum256 (ipad h ++ written h) in
  inb ++ SHA256.Sum256 (opad h ++ inner).

End HMAC.

Definition hex_digit (c : ascii) : Z :=
  let n := byte_of_ascii c in
  if (48 <=? n) && (n <=? 57) then n - 48
  else if (97 <=? n) && (n <=? 102) then n - 87
  else 0.

Fixpoint unhex (s : string) : list Z :=
  match s with
  | String a (String b s') => (16 * hex_digit a + hex_digit b) :: unhex s'
  | _ => []
  end.

(** ** Errors

    Go errors are values compared by identity.  Each constructor stands for
    one error value (or one family of values) that the package can hand to
    its caller. *)

Inductive error : Type :=
  | ErrorsNew (msg : string)        (* errors.New(msg) at the point of failure *)
  | ErrStateNotFound                (* package variables of sessionError.go *)
  | ErrNoSessionID
  | ErrInvalidScheme
  | ErrInvalidID
  | CorruptInputError (offset : Z)  (* encoding/base64 *)
  | ErrRandRead                     (* crypto/rand: the reader failed *)
  | RedisNil                        (* go-redis: redis.Nil, the key is absent *)
  | RedisNetError                   (* go-redis: the server cannot be reached *)
  | JSONError.                      (* encoding/json: Marshal or Unmarshal failed *)

(** ** encoding/base64, URLEncoding (URL alphabet, '=' padding, not strict) *)

Module Base64.

Definition encodeURL : string :=
  "ABCDEFGHIJKLMNOPQRSTUVWXYZabcdefghijklmnopqrstuvwxyz0123456789-_".

Definition padChar : ascii := "="%char.

(** [enc.encode[i]] *)
Definition encode (i : Z) : ascii :=
  match String.get (Z.to_nat i) encodeURL with
  | Some c => c
  | None => Ascii.zero
  end.

(** [enc.decodeMap[c]]: 0xFF everywhere except at the letters of the
    alphabet, which map to their position. *)
Fixpoint position (c : ascii) (alphabet : string) (i : Z) : Z :=
  match alphabet with
  | EmptyString => 0xFF
  | String d rest => if Ascii.eqb c d then i else position c rest (i + 1)
  end.

Definition decodeMap (c : ascii) : Z := position c encodeURL 0.

(** [val>>k&0x3F], the six bits of [val] from bit [k] up. *)
Definition six (val k : Z) : Z := Z.land (Z.shiftr val k) 0x3F.

Definition sextet (val k : Z) : ascii := encode (six val k).

(** [enc.EncodeToString(src)] *)
Fixpoint EncodeToString (src : list Z) : string :=
  match src with
  | [] => EmptyString
  | [a] =>
      let val := Z.shiftl a 16 in
      String (sextet val 18) (String (sextet val 12)
        (String padChar (String padChar EmptyString)))
  | [a; b] =>
      let val := Z.lor (Z.shiftl a 16) (Z.shiftl b 8) in
      String (sextet val 18) (String (sextet val 12)
        (String (sextet val 6) (String padChar EmptyString)))
  | a :: b :: c :: rest =>
      let val := Z.lor (Z.lor (Z.shiftl a 16) (Z.shiftl b 8)) c in
      String (sextet val 18) (String (sextet val 12)
        (String (sextet val 6) (String (sextet val 0)
          (EncodeToString rest))))
  end.

Definition is_newline (c : ascii) : bool :=
  Ascii.eqb c "010"%char || Ascii.eqb c "013"%char.

(** The loops [for si < len(src) && (src[si] == '\n' || src[si] == '\r')]. *)
Fixpoint skip_newlines (src : string) (si : Z) : string * Z :=
  match src with
  | EmptyString => (src, si)
  | String c rest =>
      if is_newline c then skip_newlines rest (si + 1) else (src, si)
  end.

(** The tail of [decodeQuantum]: [dlen] six-bit values become [dlen - 1]
    bytes. *)
Definition quantum_bytes (dbuf : list Z) : list Z :=
  let val :=
    Z.lor (Z.lor (Z.lor (Z.shiftl (nth 0 dbuf 0) 18)
                        (Z.shiftl (nth 1 dbuf 0) 12))
                 (Z.shiftl (nth 2 dbuf 0) 6))
          (nth 3 dbuf 0) in
  firstn (length dbuf - 1)
    [ Z.shiftr val 16 mod 256; Z.shiftr val 8 mod 256; val mod 256 ].

(** After the padding of a quantum: newlines may follow, anything else is
    trailing garbage. *)
Definition after_padding (rest : string) (si : Z) (dbuf : list Z)
  : list Z * option error :=
  let '(rest', si') := skip_newlines rest si in
  match rest' with
  | EmptyString => (quantum_bytes dbuf, None)
  | String _ _ => (quantum_bytes dbuf, Some (CorruptInputError si'))
  end.

(** [enc.Decode]: the loop over [decodeQuantum], one input character per
    step.  [si] is the offset of the head of [src] in the whole input and
    [dbuf] holds the six-bit values of the current quantum ([j] is its
    length).  The result is the decoded bytes up to the error, if any. *)
Fixpoint decode (src : string) (si : Z) (dbuf : list Z)
  : list Z * option error :=
  match src with
  | EmptyString =>
      match dbuf with
      | [] => ([], None)
      | _ => ([], Some (CorruptInputError (si - Z.of_nat (length dbuf))))
      end
  | String c rest =>
      let out := decodeMap c in
      if negb (out =? 0xFF) then
        if (length dbuf =? 3)%nat then
          let '(bs, err) := decode rest (si + 1) [] in
          (quantum_bytes (dbuf ++ [out]) ++ bs, err)
        else decode rest (si + 1) (dbuf ++ [out])
      else if is_newline c then decode rest (si + 1) dbuf
      else if negb (Ascii.eqb c padChar) then
        ([], Some (CorruptInputError si))
      else
        match length dbuf with
        | 0%nat | 1%nat => ([], Some (CorruptInputError si))
        | 2%nat =>
            let '(rest', si') := skip_newlines rest (si + 1) in
            match rest' with
            | EmptyString => ([], Some (CorruptInputError si'))
            | String c' rest'' =>
                if negb (Ascii.eqb c' padChar)
                then ([], Some (CorruptInputError (si' - 1)))
                else after_padding rest'' (si' + 1) dbuf
            end
        | _ => after_padding rest (si + 1) dbuf
        end
  end.

(** [enc.DecodeString(s)] *)
Definition DecodeString (s : string) : list Z * option error :=
  decode s 0 [].

End Base64.

(** ** crypto/subtle and hmac.Equal *)

Module Subtle.

(** [int((uint32(x^y) - 1) >> 31)] *)
Definition ConstantTimeByteEq (x y : Z) : Z :=
  Z.shiftr ((Z.lxor x y - 1) mod 2 ^ 32) 31.

(** The loop [v |= x[i] ^ y[i]]. *)
Fixpoint or_xor (v : Z) (x y : list Z) : Z :=
  match x, y with
  | a :: x', b :: y' => or_xor (Z.lor v (Z.lxor a b)) x' y'
  | _, _ => v
  end.

Definition ConstantTimeCompare (x y : list Z) : Z :=
  if negb (length x =? length y)%nat then 0
  else ConstantTimeByteEq (or_xor 0 x y) 0.

End Subtle.

Definition hmac_Equal (mac1 mac2 : list Z) : bool :=
  Subtle.ConstantTimeCompare mac1 mac2 =? 1.

(** ** Package session: the process state

    The package has one package-level variable, [generatedSID].  The other
    piece of state that minting touches is the operating system's entropy
    source behind [crypto/rand]: [rand_Reader] is the sequence of bytes it
    will deliver, and a read fails when it cannot supply the bytes asked
    for. *)

Record world : Type := mkWorld {
  rand_Reader : list Z;
  generatedSID : string
}.

(** A call either returns a value and the new state, or panics, or runs
    into a failure of the entropy source.  What a failed read does depends on
    the Go release: before Go 1.24 [rand.Read] returns an error and the call
    goes on as [next]; from Go 1.24 on the runtime stops the process at that
    point and [next] never happens. *)
Inductive outcome (A : Type) : Type :=
  | Return (a : A) (w : world)
  | Panic (msg : string)
  | RandFailed (next : outcome A).
Arguments Return {A} a w.
Arguments Panic {A} msg.
Arguments RandFailed {A} next.

Definition M (A : Type) : Type := world -> outcome A.

Definition ret {A} (a : A) : M A := fun w => Return a w.

Fixpoint continue {A B} (o : outcome A) (k : A -> M B) : outcome B :=
  match o with
  | Return a w' => k a w'
  | Panic msg => Panic msg
  | RandFailed next => RandFailed (continue next k)
  end.

Definition bind {A B} (m : M A) (k : A -> M B) : M B :=
  fun w => continue (m w) k.

Definition panic {A} (msg : string) : M A := fun _ => Panic msg.

Notation "'do' x <- m ; k" := (bind m (fun x => k))
  (at level 10, x pattern, m at level 100, k at level 200).

(** [rand.Read(b)] with [len(b) = n]: the bytes read, or the failure of the
    source with the error that a Go release before 1.24 returns. *)
Definition rand_Read (n : nat) : M (list Z * option error) :=
  fun w =>
    if (n <=? length (rand_Reader w))%nat
    then Return (firstn n (rand_Reader w), None)
                (mkWorld (skipn n (rand_Reader w)) (generatedSID w))
    else RandFailed (Return ([], Some ErrRandRead) w).

Definition set_generatedSID (s : string) : M unit :=
  fun w => Return tt (mkWorld (rand_Reader w) s).

Definition get_generatedSID : M string :=
  fun w => Return (generatedSID w) w.

(** The slice expression [s[low:]], which panics when [low > len(s)]. *)
Definition slice_from (s : list Z) (low : nat) : M (list Z) :=
  if (low <=? length s)%nat then ret (skipn low s)
  else panic "slice bounds out of range".

(** ** Package session: session identifiers *)

Definition SID : Type := string.

Definition InvalidSessionID : SID := "".

Definition idLength : nat := 32.

Definition GenerateRandomBytes (n : nat) : M (list Z * option error) :=
  do (b, err) <- rand_Read n;
  match err with
  | Some e => ret ([], Some e)
  | None => ret (b, None)
  end.

Definition GenerateRandomHMAC (signingKey : string) : list Z :=
  let b : list Z := [] in                    (* new(bytes.Buffer).Bytes() *)
  let h := HMAC.New (bytes_of_string signingKey) in
  let h := HMAC.Write h b in
  HMAC.Sum h [].

Definition NewSessionID (signingKey : string) : M (SID * option error) :=
  if (String.length signingKey =? 0)%nat
  then ret (InvalidSessionID, Some (ErrorsNew "not signing key"))
  else
    do (randByte, err) <- GenerateRandomBytes idLength;
    match err with
    | Some e => ret (InvalidSessionID, Some e)
    | None =>
        let combined := randByte ++ GenerateRandomHMAC signingKey in
        let sid := Base64.EncodeToString combined in
        do _ <- set_generatedSID sid;
        ret (sid, None)
    end.

Definition DecodeSessionID (sid : string) : list Z * option error :=
  let '(d, err) := Base64.DecodeString sid in
  match err with
  | Some e => ([], Some e)
  | None => (d, None)
  end.

Definition IdHasMutated (id : string) : M bool :=
  do g <- get_generatedSID;
  ret (String.eqb g id).

Definition ValidateID (id signingKey : string) : M (SID * option error) :=
  let '(decodedID, err) := DecodeSessionID id in
  match err with
  | Some e => ret (InvalidSessionID, Some e)
  | None =>
      do decodedID <- slice_from decodedID idLength;
      let matched := hmac_Equal decodedID (GenerateRandomHMAC signingKey) in
      if matched then ret (id, None)
      else ret (InvalidSessionID, Some (ErrorsNew "hmac not equal"))
  end.

Definition w0 : world := mkWorld (repeat 0 32) "".

(** ** go-redis: the client as seen by the package

    The state of the backing service is a finite map from keys to values
    with their time to live, and a flag saying whether the client can reach
    the server.  Every command records its own error in the command object
    it returns; [Exec] on a pipeline runs the queued commands in order and
    returns the error of the first command that failed, [redis.Nil] of a GET
    on an absent key included.

    A [time.Duration] counts nanoseconds.  The client sends SET with an
    expiry only for a positive duration, in milliseconds (PX) when the
    duration is below a second or not a whole number of seconds and in
    seconds (EX) otherwise, and EXPIRE always in whole seconds; the server
    deletes a key on an EXPIRE that is not positive. *)

Module Redis.

Definition Millisecond : Z := 1000000.
Definition Second : Z := 1000000000.

(** go-redis's [usePrecise], [formatMs] and [formatSec]; Go's integer
    division truncates toward zero. *)
Definition usePrecise (dur : Z) : bool :=
  (dur <? Second) || negb (Z.rem dur Second =? 0).

Definition formatMs (dur : Z) : Z :=
  if (0 <? dur) && (dur <? Millisecond) then 1 else Z.quot dur Millisecond.

Definition formatSec (dur : Z) : Z :=
  if (0 <? dur) && (dur <? Second) then 1 else Z.quot dur Second.

(** A stored value and the time it has left to live, in milliseconds;
    [None] for a key that does not expire. *)
Record entry : Type := mkEntry {
  value : list Z;
  ttl : option Z
}.

Record server : Type := mkServer {
  reachable : bool;
  db : gmap string entry
}.

(** A command object after it ran: [Val()] for a GET, the flag of an
    EXPIRE, and [Err()]. *)
Record Cmd : Type := mkCmd {
  cmd_val : list Z;
  cmd_flag : bool;
  cmd_err : option error
}.

Definition failed (e : error) : Cmd := mkCmd [] false (Some e).

(** The commands as they reach the server: SET with its expiry in
    milliseconds, if any, and EXPIRE with its number of seconds. *)
Inductive request : Type :=
  | SET (key : string) (v : list Z) (px : option Z)
  | GET (key : string)
  | DEL (key : string)
  | EXPIRE (key : string) (seconds : Z).

(** One command on a reachable server. *)
Definition process (r : request) (d : gmap string entry)
  : Cmd * gmap string entry :=
  match r with
  | SET key v px =>
      (mkCmd [] true None, <[key := mkEntry v px]> d)
  | GET key =>
      match d !! key with
      | Some e => (mkCmd (value e) true None, d)
      | None => (failed RedisNil, d)
      end
  | DEL key =>
      (mkCmd [] (bool_decide (is_Some (d !! key))) None, delete key d)
  | EXPIRE key seconds =>
      match d !! key with
      | Some e =>
          if seconds <=? 0 then (mkCmd [] true None, delete key d)
          else (mkCmd [] true None,
                <[key := mkEntry (value e) (Some (seconds * 1000))]> d)
      | None => (mkCmd [] false None, d)
      end
  end.

Definition run (r : request) (s : server) : Cmd * server :=
  if reachable s
  then let '(c, d) := process r (db s) in (c, mkServer true d)
  else (failed RedisNetError, s).

(** The expiry that [Client.Set] sends for [expiration]. *)
Definition set_expiry (expiration : Z) : option Z :=
  if 0 <? expiration
  then Some (if usePrecise expiration then formatMs expiration
             else formatSec expiration * 1000)
  else None.

Definition ClientSet (key : string) (v : list Z) (expiration : Z)
  : server -> Cmd * server := run (SET key v (set_expiry expiration)).
Definition ClientDel (key : string) : server -> Cmd * server :=
  run (DEL key).

(** The commands that [pipeline.Get] and [pipeline.Expire] queue. *)
Definition PipelineGet (key : string) : request := GET key.
Definition PipelineExpire (key : string) (expiration : Z) : request :=
  EXPIRE key (formatSec expiration).

Fixpoint run_all (rs : list request) (s : server) : list Cmd * server :=
  match rs with
  | [] => ([], s)
  | r :: rs' =>
      let '(c, s1) := run r s in
      let '(cs, s2) := run_all rs' s1 in
      (c :: cs, s2)
  end.

Fixpoint first_err (cs : list Cmd) : option error :=
  match cs with
  | [] => None
  | c :: cs' =>
      match cmd_err c with
      | Some e => Some e
      | None => first_err cs'
      end
  end.

(** [pipeline.Exec()] on the queued requests. *)
Definition Exec (queued : list request) (s : server)
  : (list Cmd * option error) * server :=
  let '(cs, s') := run_all queued s in
  ((cs, first_err cs), s').

End Redis.

(** ** encoding/json, as far as the store uses it

    The session state is an [interface{}]; the store only marshals it and
    unmarshals into it.  [Unmarshal data v] gives the new contents of [*v]
    and the error. *)

Class JSON (A : Type) : Type := {
  Marshal : A -> list Z * option error;
  Unmarshal : list Z -> A -> A * option error
}.

Definition bytes_eqb (x y : list Z) : bool :=
  bool_decide (x = y).

(** A Go [bool] as session state. *)
#[export] Instance JSON_bool : JSON bool := {
  Marshal b := (bytes_of_string (if b then "true" else "false"), None);
  Unmarshal data v :=
    if bytes_eqb data (bytes_of_string "true") then (true, None)
    else if bytes_eqb data (bytes_of_string "false") then (false, None)
    else if bytes_eqb data (bytes_of_string "null") then (v, None)
    else (v, Some JSONError)
}.

(** ** Package session: the Redis store *)

Record RedisStore : Type := mkRedisStore {
  SessionDuration : Z
}.

Definition getRedisKey (sid : SID) : string := sid.

Definition Save {A} `{JSON A} (rs : RedisStore) (sid : SID) (sessionState : A)
  (s : Redis.server) : option error * Redis.server :=
  let '(j, err) := Marshal sessionState in
  match err with
  | Some e => (Some e, s)
  | None =>
      let '(_, s') := Redis.ClientSet (getRedisKey sid) j (SessionDuration rs) s in
      (None, s')
  end.

Definition Delete (rs : RedisStore) (sid : SID) (s : Redis.server)
  : option error * Redis.server :=
  let '(_, s') := Redis.ClientDel (getRedisKey sid) s in
  (None, s').

(** [Get] returns the error, the contents of [*sessionState] afterwards and
    the state of the server. *)
Definition Get {A} `{JSON A} (rs : RedisStore) (sid : SID) (sessionState : A)
  (s : Redis.server) : option error * A * Redis.server :=
  let queued := [ Redis.PipelineGet (getRedisKey sid);
                  Redis.PipelineExpire (getRedisKey sid) (SessionDuration rs) ] in
  let '((cmds, err), s') := Redis.Exec queued s in
  match err with
  | Some e => (Some e, sessionState, s')
  | None =>
      let pipe := nth 0 cmds (Redis.failed RedisNil) in
      match Redis.cmd_err pipe with
      | Some e => (Some e, sessionState, s')
      | None =>
          let '(v, err) := Unmarshal (Redis.cmd_val pipe) sessionState in
          match err with
          | Some e => (Some e, v, s')
          | None => (None, v, s')
          end
      end
  end.

Definition up (d : gmap string Redis.entry) : Redis.server := Redis.mkServer true d.
Definition down (d : gmap string Redis.entry) : Redis.server := Redis.mkServer false d.

(** ** Vocabulary of the properties *)

(** HMAC-SHA256 of [msg] under [key]: [hmac.New(sha256.New, key)],
    [Write(msg)], [Sum(nil)]. *)
Definition hmac_sha256 (key msg : list Z) : list Z :=
  HMAC.Sum (HMAC.Write (HMAC.New key) msg) [].

(** Bit [i] of a byte slice, counted from the low bit of the first byte,
    inverted. *)
Definition flip_bit (i : nat) (bs : list Z) : list Z :=
  alter (fun b => Z.lxor b (2 ^ Z.of_nat (i mod 8))) (i / 8)%nat bs.

(** The error of a token that is not base64-URL text. *)
Definition is_CorruptInputError (e : error) : bool :=
  match e with
  | CorruptInputError _ => true
  | _ => false
  end.

(** The error of a token whose signature does not match. *)
Definition hmac_not_equal : error := ErrorsNew "hmac not equal".

(** ** A session state that encoding/json cannot marshal

    [json.Marshal] fails with an [UnsupportedTypeError] on a Go function
    value (as on channels and complex numbers), and [json.Unmarshal] cannot
    store anything into one. *)

Inductive go_func : Type := FuncValue.

#[export] Instance JSON_func : JSON go_func := {
  Marshal _ := ([], Some JSONError);
  Unmarshal _ v := (v, Some JSONError)
}.

(** [NewRedisStore(client, sessionDuration)]; the client is the connection
    to the server whose state is passed along explicitly. *)
Definition NewRedisStore (sessionDuration : Z) : RedisStore :=
  mkRedisStore sessionDuration.

(** ** The [Store] interface

    A method of a Go value behind the interface is arbitrary code of the
    same process: it can fail, panic and change the package's state.  So
    each method is a computation in [M], on top of the store's own state
    [S]. *)

Class Store (T S : Type) : Type := {
  Store_Save : forall {A : Type}, JSON A -> T -> SID -> A -> S -> M (option error * S);
  Store_Get : forall {A : Type}, JSON A -> T -> SID -> A -> S -> M (option error * A * S);
  Store_Delete : T -> SID -> S -> M (option error * S)
}.

#[export] Instance RedisStore_Store : Store RedisStore Redis.server := {
  Store_Save A J rs sid x st := ret (Save rs sid x st);
  Store_Get A J rs sid x st := ret (Get rs sid x st);
  Store_Delete rs sid st := ret (Delete rs sid st)
}.

(** ** net/http and strings, as far as the package uses them

    [http.Header] and [url.Values] map a key to the list of its values;
    [Get] returns the first value or the empty string and [Add] appends a
    value.  The keys that the package uses are in canonical form already. *)

Module http.

Definition Get (h : gmap string (list string)) (key : string) : string :=
  match h !! key with
  | Some (v :: _) => v
  | _ => EmptyString
  end.

Definition Add (h : gmap string (list string)) (key v : string)
  : gmap string (list string) :=
  <[key := default [] (h !! key) ++ [v]]> h.

(** What the package reads of an [*http.Request]: [r.Header] and
    [r.URL.Query()]. *)
Record Request : Type := mkRequest {
  Header : gmap string (list string);
  URL_Query : gmap string (list string)
}.

End http.

(** [strings.Split(s, sep)] for a separator of one byte: the pieces of [s]
    between the separators, one more than there are separators. *)
Fixpoint Split (s : string) (sep : ascii) : list string :=
  match s with
  | EmptyString => [EmptyString]
  | String c s' =>
      if Ascii.eqb c sep then EmptyString :: Split s' sep
      else match Split s' sep with
           | h :: t => String c h :: t
           | [] => [String c EmptyString]
           end
  end.

(** ** Package session: sessions over HTTP *)

Definition headerAuthorization : string := "Authorization".
Definition paramAuthorization : string := "auth".
Definition schemeBearer : string := "Bearer ".

(** [BeginSession]: the result, the state of the store and the headers of
    the response afterwards. *)
Definition BeginSession {T S A : Type} `{Store T S} `{JSON A}
  (signingKey : string) (store : T) (sessionState : A)
  (st : S) (w : gmap string (list string))
  : M (SID * option error * S * gmap string (list string)) :=
  do (sid, err) <- NewSessionID signingKey;
  match err with
  | Some e => ret (InvalidSessionID, Some e, st, w)
  | None =>
      do (err, st') <- Store_Save _ store sid sessionState st;
      match err with
      | Some e => ret (InvalidSessionID, Some e, st', w)
      | None =>
          ret (sid, None, st',
               http.Add w "Authorization" (String.append schemeBearer sid))
      end
  end.

Definition GetSessionID (r : http.Request) (signingKey : string)
  : M (SID * option error) :=
  let id := http.Get (http.Header r) headerAuthorization in
  let id := if (String.length id =? 0)%nat
            then http.Get (http.URL_Query r) paramAuthorization
            else id in
  let s := Split id " " in
  match length s with
  | 0%nat | 1%nat => ret (InvalidSessionID, Some ErrNoSessionID)
  | 2%nat =>
      if negb (String.eqb (nth 0 s EmptyString) "Bearer")
      then ret (InvalidSessionID, Some ErrInvalidScheme)
      else
        let id := nth (length s - 1) s EmptyString in
        do (sid, err) <- ValidateID id signingKey;
        match err with
        | Some e => ret (InvalidSessionID, Some e)
        | None => ret (sid, None)
        end
  | _ => ret (InvalidSessionID, Some ErrInvalidScheme)
  end.

(** [GetState]: the result, the contents of [*sessionState] and the state
    of the server afterwards. *)
Definition GetState {A : Type} `{JSON A}
  (r : http.Request) (signingKey : string) (store : RedisStore)
  (sessionState : A) (st : Redis.server)
  : M (SID * option error * A * Redis.server) :=
  do (sid, err) <- GetSessionID r signingKey;
  match err with
  | Some e => ret (InvalidSessionID, Some e, sessionState, st)
  | None =>
      let '(err, v, st') := Get store sid sessionState st in
      match err with
      | Some e => ret (InvalidSessionID, Some e, v, st')
      | None => ret (sid, None, v, st')
      end
  end.

Definition EndSession {T S : Type} `{Store T S}
  (r : http.Request) (signingKey : string) (store : T) (st : S)
  : M (SID * option error * S) :=
  do (sid, err) <- GetSessionID r signingKey;
  match err with
  | Some e => ret (InvalidSessionID, Some e, st)
  | None =>
      do (err, st') <- Store_Delete store sid st;
      match err with
      | Some e => ret (InvalidSessionID, Some e, st')
      | None => ret (sid, None, st')
      end
  end.

(** A request that carries [v] in its Authorization header, and one that
    carries it in the [auth] query parameter. *)
Definition with_header (v : string) : http.Request :=
  http.mkRequest {[ headerAuthorization := [v] ]} ∅.

Definition with_query (v : string) : http.Request :=
  http.mkRequest ∅ {[ paramAuthorization := [v] ]}.

(** No byte of [s] is a space. *)
Fixpoint no_space (s : string) : bool :=
  match s with
  | EmptyString => true
  | String c s' => negb (Ascii.eqb c " ") && no_space s'
  end.

(** The text that [GetSessionID] examines: the first value of the
    Authorization header or, when that is empty, of the [auth] parameter. *)
Definition credential (r : http.Request) : string :=
  let id := http.Get (http.Header r) headerAuthorization in
  if (String.length id =? 0)%nat
  then http.Get (http.URL_Query r) paramAuthorization
  else id.

(** The number of spaces in [s]. *)
Fixpoint count_space (s : string) : nat :=
  match s with
  | EmptyString => 0
  | String c s' => ((if Ascii.eqb c " " then 1 else 0) + count_space s')%nat
  end.

(** * Checks of the model against known values *)

Example sha256_empty :
  SHA256.Sum256 [] =
  unhex "e3b0c44298fc1c149afbf4c8996fb92427ae41e4649b934ca495991b7852b855".
Proof. vm_compute. reflexivity. Qed.

Example sha256_abc :
  SHA256.Sum256 (bytes_of_string "abc") =
  unhex "ba7816bf8f01cfea414140de5dae2223b00361a396177a9cb410ff61f20015ad".
Proof. vm_compute. reflexivity. Qed.

Example sha256_two_block_padding :
  SHA256.Sum256 (repeat 97 56) =
  unhex "b35439a4ac6f0948b6d6f9e3c6af0f5f590ce20f1bde7090ef7970686ec6738a".
Proof. vm_compute. reflexivity. Qed.

Example hmac_rfc4231_case2 :
  HMAC.Sum (HMAC.Write (HMAC.New (bytes_of_string "Jefe"))
              (bytes_of_string "what do ya want for nothing?")) [] =
  unhex "5bdcc146bf60754e6a042426089575c75a003f089d2739839dec58b964ec3843".
Proof. vm_compute. reflexivity. Qed.

Example hmac_long_key :
  HMAC.Sum (HMAC.New (repeat 107 100)) [] =
  unhex "d46761768ee3c864fc76c08b3d73c8092853ae3fefa01b990963dfa2d56e7334".
Proof. vm_compute. reflexivity. Qed.

Example base64_encode_foobar :
  Base64.EncodeToString (bytes_of_string "foobar") = "Zm9vYmFy"%string
  /\ Base64.EncodeToString (bytes_of_string "fooba") = "Zm9vYmE="%string
  /\ Base64.EncodeToString (bytes_of_string "foob") = "Zm9vYg=="%string
  /\ Base64.EncodeToString [251; 255; 190] = "-_--"%string.
Proof. vm_compute. repeat split. Qed.

Example base64_decode_samples :
  Base64.DecodeString "Zm9vYmE=" = (bytes_of_string "fooba", None)
  /\ Base64.DecodeString "AA==" = ([0], None)
  /\ Base64.DecodeString "not-base64!!" = ([158; 139; 126; 109; 171; 30], Some (CorruptInputError 10))
  /\ Base64.DecodeString "AA=" = ([], Some (CorruptInputError 3))
  /\ Base64.DecodeString "Zm9v+mFy" = (bytes_of_string "foo", Some (CorruptInputError 4)).
Proof. vm_compute. repeat split. Qed.

Example entropy_failure :
  NewSessionID "k" (mkWorld [1; 2; 3] "old") =
  RandFailed (Return (InvalidSessionID, Some ErrRandRead) (mkWorld [1; 2; 3] "old")).
Proof. vm_compute. reflexivity. Qed.

Example expiry_on_the_wire :
  Redis.set_expiry 0 = None
  /\ Redis.set_expiry (-5) = None
  /\ Redis.set_expiry 1500000000 = Some 1500
  /\ Redis.set_expiry 2000000000 = Some 2000
  /\ Redis.set_expiry 10 = Some 1
  /\ Redis.formatSec 1500000000 = 1
  /\ Redis.formatSec 10 = 1
  /\ Redis.formatSec 0 = 0
  /\ Redis.formatSec (-1500000000) = -1.
Proof. vm_compute. repeat split. Qed.

(** With a session duration of zero the entry is stored without expiry, the
    first [Get] reads it and its EXPIRE deletes it. *)
Example store_without_duration :
  let rs := mkRedisStore 0 in
  let '(e1, s1) := Save rs "abc" true (up ∅) in
  let '(e2, out, s2) := Get rs "abc" false s1 in
  let '(e3, out', s3) := Get rs "abc" false s2 in
  (e1, Redis.ttl <$> Redis.db s1 !! "abc"%string, e2, out, Redis.db s2 !! "abc"%string, e3)
  = (None, Some None, None, true, None, Some RedisNil).
Proof. vm_compute. reflexivity. Qed.

Example store_lifecycle :
  let rs := mkRedisStore 3600 in
  let '(e1, s1) := Save rs "abc" true (up ∅) in
  let '(e2, out, s2) := Get rs "abc" false s1 in
  let '(e3, s3) := Delete rs "abc" s2 in
  let '(e4, out', s4) := Get rs "abc" false s3 in
  (e1, e2, out, e3, e4, out') = (None, None, true, None, Some RedisNil, false).
Proof. vm_compute. reflexivity. Qed.

(** * Properties of the library models *)

(** ** Bit arithmetic *)

Lemma land_shiftl_low (hi lo k : Z) :
  0 <= k -> 0 <= lo < 2 ^ k -> Z.land (Z.shiftl hi k) lo = 0.
Proof.
  intros Hk Hlo. apply Z.bits_inj'. intros n Hn.
  rewrite Z.land_spec, Z.bits_0.
  destruct (Z.lt_ge_cases n k) as [Hlt | Hge].
  - rewrite Z.shiftl_spec_low by lia. reflexivity.
  - rewrite <- (Z.mod_small lo (2 ^ k)) by lia.
    rewrite Z.mod_pow2_bits_high by lia. apply andb_false_r.
Qed.

Lemma lor_shiftl_add (hi lo k : Z) :
  0 <= k -> 0 <= lo < 2 ^ k -> Z.lor (Z.shiftl hi k) lo = hi * 2 ^ k + lo.
Proof.
  intros Hk Hlo.
  rewrite <- (Z.shiftl_mul_pow2 hi k) by lia.
  rewrite <- Z.add_lor_land, land_shiftl_low by lia. lia.
Qed.

Lemma land_63 (x : Z) : Z.land x 0x3F = x mod 64.
Proof. change 0x3F with (Z.ones 6). rewrite Z.land_ones by lia. reflexivity. Qed.

Lemma quantum_value (s0 s1 s2 s3 : Z) :
  0 <= s1 < 64 -> 0 <= s2 < 64 -> 0 <= s3 < 64 ->
  Z.lor (Z.lor (Z.lor (Z.shiftl s0 18) (Z.shiftl s1 12)) (Z.shiftl s2 6)) s3
  = s0 * 262144 + s1 * 4096 + s2 * 64 + s3.
Proof.
  intros H1 H2 H3.
  rewrite (Z.shiftl_mul_pow2 s1 12), (Z.shiftl_mul_pow2 s2 6) by lia.
  rewrite (lor_shiftl_add s0 (s1 * 2 ^ 12) 18) by lia.
  replace (s0 * 2 ^ 18 + s1 * 2 ^ 12) with (Z.shiftl (s0 * 64 + s1) 12)
    by (rewrite Z.shiftl_mul_pow2 by lia; lia).
  rewrite (lor_shiftl_add _ (s2 * 2 ^ 6) 12) by lia.
  replace ((s0 * 64 + s1) * 2 ^ 12 + s2 * 2 ^ 6)
    with (Z.shiftl (s0 * 4096 + s1 * 64 + s2) 6)
    by (rewrite Z.shiftl_mul_pow2 by lia; lia).
  rewrite (lor_shiftl_add _ s3 6) by lia. lia.
Qed.

Lemma bytes_value (a b c : Z) :
  is_byte b -> is_byte c ->
  Z.lor (Z.lor (Z.shiftl a 16) (Z.shiftl b 8)) c = a * 65536 + b * 256 + c.
Proof.
  unfold is_byte. intros Hb Hc.
  rewrite (Z.shiftl_mul_pow2 b 8) by lia.
  rewrite (lor_shiftl_add a (b * 2 ^ 8) 16) by lia.
  replace (a * 2 ^ 16 + b * 2 ^ 8) with (Z.shiftl (a * 256 + b) 8)
    by (rewrite Z.shiftl_mul_pow2 by lia; lia).
  rewrite (lor_shiftl_add _ c 8) by lia. lia.
Qed.

Lemma six_div (val k : Z) : 0 <= k -> Base64.six val k = (val / 2 ^ k) mod 64.
Proof. intros Hk. unfold Base64.six. rewrite land_63, Z.shiftr_div_pow2 by lia. reflexivity. Qed.

Lemma six_range (val k : Z) : 0 <= Base64.six val k < 64.
Proof. unfold Base64.six. rewrite land_63. apply Z.mod_pos_bound. lia. Qed.

Lemma quantum_bytes_3 (a b c : Z) :
  is_byte a -> is_byte b -> is_byte c ->
  let val := Z.lor (Z.lor (Z.shiftl a 16) (Z.shiftl b 8)) c in
  Base64.quantum_bytes [Base64.six val 18; Base64.six val 12; Base64.six val 6; Base64.six val 0] = [a; b; c].
Proof.
  intros Ha Hb Hc val. unfold Base64.quantum_bytes.
  cbn [nth length Nat.sub firstn].
  rewrite quantum_value by apply six_range.
  subst val. rewrite bytes_value by assumption.
  rewrite !six_div, !Z.shiftr_div_pow2 by lia.
  unfold is_byte in *.
  change (2 ^ 18) with 262144. change (2 ^ 12) with 4096. change (2 ^ 6) with 64.
  change (2 ^ 16) with 65536. change (2 ^ 8) with 256. change (2 ^ 0) with 1.
  repeat f_equal; Z.div_mod_to_equations; lia.
Qed.

Lemma quantum_bytes_2 (a b : Z) :
  is_byte a -> is_byte b ->
  let val := Z.lor (Z.shiftl a 16) (Z.shiftl b 8) in
  Base64.quantum_bytes [Base64.six val 18; Base64.six val 12; Base64.six val 6]
  = [a; b].
Proof.
  intros Ha Hb val. unfold Base64.quantum_bytes.
  cbn [nth length Nat.sub firstn].
  rewrite quantum_value by (try apply six_range; lia).
  subst val. rewrite <- (Z.lor_0_r (Z.lor _ _)).
  rewrite bytes_value by (unfold is_byte in *; lia).
  rewrite !six_div, !Z.shiftr_div_pow2 by lia.
  unfold is_byte in *.
  change (2 ^ 18) with 262144. change (2 ^ 12) with 4096. change (2 ^ 6) with 64.
  change (2 ^ 16) with 65536. change (2 ^ 8) with 256.
  repeat f_equal; Z.div_mod_to_equations; lia.
Qed.

Lemma quantum_bytes_1 (a : Z) :
  is_byte a ->
  let val := Z.shiftl a 16 in
  Base64.quantum_bytes [Base64.six val 18; Base64.six val 12] = [a].
Proof.
  intros Ha val. unfold Base64.quantum_bytes.
  cbn [nth length Nat.sub firstn].
  rewrite quantum_value by (try apply six_range; lia).
  subst val. rewrite Z.shiftl_mul_pow2 by lia.
  rewrite !six_div, !Z.shiftr_div_pow2 by lia.
  unfold is_byte in *.
  change (2 ^ 18) with 262144. change (2 ^ 12) with 4096.
  change (2 ^ 16) with 65536.
  repeat f_equal; Z.div_mod_to_equations; lia.
Qed.

(** ** The base64 alphabet *)

Lemma decodeMap_encode (i : Z) :
  0 <= i < 64 -> Base64.decodeMap (Base64.encode i) = i.
Proof.
  intros Hi.
  assert (forallb (fun n => Base64.decodeMap (Base64.encode (Z.of_nat n)) =? Z.of_nat n)
            (seq 0 64) = true) as Hall by (vm_compute; reflexivity).
  rewrite forallb_forall in Hall.
  specialize (Hall (Z.to_nat i)).
  rewrite Z2Nat.id in Hall by lia.
  apply Z.eqb_eq, Hall, in_seq. lia.
Qed.

Lemma decode_letter (i : Z) (rest : string) (si : Z) (dbuf : list Z) :
  0 <= i < 64 ->
  Base64.decode (String (Base64.encode i) rest) si dbuf =
  if (length dbuf =? 3)%nat
  then let '(bs, err) := Base64.decode rest (si + 1) [] in
       (Base64.quantum_bytes (dbuf ++ [i]) ++ bs, err)
  else Base64.decode rest (si + 1) (dbuf ++ [i]).
Proof.
  intros Hi. cbn [Base64.decode].
  rewrite decodeMap_encode by assumption.
  destruct (Z.eqb_spec i 0xFF) as [E | _]; [lia | reflexivity].
Qed.

Lemma decode_sextet (val k : Z) (rest : string) (si : Z) (dbuf : list Z) :
  Base64.decode (String (Base64.sextet val k) rest) si dbuf =
  if (length dbuf =? 3)%nat
  then let '(bs, err) := Base64.decode rest (si + 1) [] in
       (Base64.quantum_bytes (dbuf ++ [Base64.six val k]) ++ bs, err)
  else Base64.decode rest (si + 1) (dbuf ++ [Base64.six val k]).
Proof. apply decode_letter, six_range. Qed.

Lemma decode_padding_2 (s0 s1 si : Z) :
  Base64.decode (String Base64.padChar (String Base64.padChar EmptyString)) si [s0; s1]
  = (Base64.quantum_bytes [s0; s1], None).
Proof. reflexivity. Qed.

Lemma decode_padding_1 (s0 s1 s2 si : Z) :
  Base64.decode (String Base64.padChar EmptyString) si [s0; s1; s2]
  = (Base64.quantum_bytes [s0; s1; s2], None).
Proof. reflexivity. Qed.

Lemma list_ind3 {A : Type} (P : list A -> Prop) :
  P [] -> (forall a, P [a]) -> (forall a b, P [a; b]) ->
  (forall a b c l, P l -> P (a :: b :: c :: l)) ->
  forall l, P l.
Proof.
  intros H0 H1 H2 H3.
  fix IH 1.
  intros [| a [| b [| c l]]];
    [apply H0 | apply H1 | apply H2 | apply H3, IH].
Qed.

(** Decoding undoes encoding, at any offset. *)
Lemma decode_EncodeToString (src : list Z) :
  bytes_ok src ->
  forall si, Base64.decode (Base64.EncodeToString src) si [] = (src, None).
Proof.
  unfold bytes_ok.
  induction src as [| a | a b | a b c l IH] using list_ind3; intros Hok si.
  - reflexivity.
  - inversion_clear Hok as [| ? ? Ha _].
    cbn [Base64.EncodeToString].
    rewrite !decode_sextet. cbn [length Nat.eqb app].
    rewrite decode_padding_2. f_equal. apply quantum_bytes_1, Ha.
  - inversion_clear Hok as [| ? ? Ha Hok']. inversion_clear Hok' as [| ? ? Hb _].
    cbn [Base64.EncodeToString].
    rewrite !decode_sextet. cbn [length Nat.eqb app].
    rewrite decode_padding_1. f_equal. apply quantum_bytes_2; assumption.
  - inversion_clear Hok as [| ? ? Ha Hok']. inversion_clear Hok' as [| ? ? Hb Hok].
    inversion_clear Hok as [| ? ? Hc Hl].
    cbn [Base64.EncodeToString].
    rewrite !decode_sextet. cbn [length Nat.eqb app].
    rewrite IH by assumption.
    rewrite quantum_bytes_3 by assumption. reflexivity.
Qed.

Theorem DecodeString_EncodeToString (src : list Z) :
  bytes_ok src ->
  Base64.DecodeString (Base64.EncodeToString src) = (src, None).
Proof. intros H. apply decode_EncodeToString, H. Qed.

(** ** Digests are 32 bytes *)

Lemma be_bytes_length (w : nat) (x : Z) : length (SHA256.be_bytes w x) = w.
Proof. induction w as [| w IH]; cbn [SHA256.be_bytes length]; congruence. Qed.

Lemma be_bytes_ok (w : nat) (x : Z) : bytes_ok (SHA256.be_bytes w x).
Proof.
  induction w as [| w IH]; cbn [SHA256.be_bytes]; constructor; [| exact IH].
  unfold is_byte. apply Z.mod_pos_bound. lia.
Qed.

Lemma digest_bytes_length (d : SHA256.digest) :
  length (SHA256.digest_bytes d) = SHA256.Size.
Proof.
  unfold SHA256.digest_bytes.
  rewrite !length_app, !be_bytes_length. reflexivity.
Qed.

Lemma digest_bytes_ok (d : SHA256.digest) : bytes_ok (SHA256.digest_bytes d).
Proof.
  unfold SHA256.digest_bytes, bytes_ok.
  repeat (apply Forall_app; split); apply be_bytes_ok.
Qed.

Lemma Sum256_length (data : list Z) : length (SHA256.Sum256 data) = 32%nat.
Proof. apply digest_bytes_length. Qed.

Lemma Sum256_ok (data : list Z) : bytes_ok (SHA256.Sum256 data).
Proof. apply digest_bytes_ok. Qed.

Lemma GenerateRandomHMAC_length (signingKey : string) :
  length (GenerateRandomHMAC signingKey) = 32%nat.
Proof. unfold GenerateRandomHMAC, HMAC.Sum. cbn [app]. apply Sum256_length. Qed.

Lemma GenerateRandomHMAC_ok (signingKey : string) :
  bytes_ok (GenerateRandomHMAC signingKey).
Proof. unfold GenerateRandomHMAC, HMAC.Sum. cbn [app]. apply Sum256_ok. Qed.

(** The digest that the package computes is the HMAC of the empty message. *)
Lemma GenerateRandomHMAC_empty_message (signingKey : string) :
  GenerateRandomHMAC signingKey =
  HMAC.Sum (HMAC.Write (HMAC.New (bytes_of_string signingKey)) []) [].
Proof. reflexivity. Qed.

(** ** hmac.Equal *)

Lemma or_xor_same (x : list Z) (v : Z) : Subtle.or_xor v x x = v.
Proof.
  revert v. induction x as [| a x IH]; intros v; cbn [Subtle.or_xor].
  - reflexivity.
  - rewrite IH, Z.lxor_nilpotent, Z.lor_0_r. reflexivity.
Qed.

Lemma hmac_Equal_same (x : list Z) : hmac_Equal x x = true.
Proof.
  unfold hmac_Equal, Subtle.ConstantTimeCompare.
  rewrite Nat.eqb_refl, or_xor_same. reflexivity.
Qed.

Lemma hmac_Equal_length (x y : list Z) :
  length x <> length y -> hmac_Equal x y = false.
Proof.
  intros Hne. unfold hmac_Equal, Subtle.ConstantTimeCompare.
  destruct (Nat.eqb_spec (length x) (length y)) as [E | _]; [contradiction |].
  reflexivity.
Qed.

Lemma byte_lor (a b : Z) : is_byte a -> is_byte b -> is_byte (Z.lor a b).
Proof.
  unfold is_byte. intros Ha Hb.
  assert (0 <= Z.lor a b) by (apply Z.lor_nonneg; lia).
  split; [assumption |].
  destruct (Z.eq_dec (Z.lor a b) 0) as [E | NE]; [lia |].
  apply (Z.log2_lt_pow2 _ 8); [lia |].
  rewrite Z.log2_lor by lia.
  destruct (Z.eq_dec a 0) as [-> | Na]; destruct (Z.eq_dec b 0) as [-> | Nb];
    cbn [Z.log2]; try lia.
  - assert (Z.log2 b < 8) by (apply Z.log2_lt_pow2; lia). lia.
  - assert (Z.log2 a < 8) by (apply Z.log2_lt_pow2; lia). lia.
  - assert (Z.log2 a < 8) by (apply Z.log2_lt_pow2; lia).
    assert (Z.log2 b < 8) by (apply Z.log2_lt_pow2; lia). lia.
Qed.

Lemma byte_lxor (a b : Z) : is_byte a -> is_byte b -> is_byte (Z.lxor a b).
Proof.
  unfold is_byte. intros Ha Hb.
  assert (0 <= Z.lxor a b) by (apply Z.lxor_nonneg; lia).
  split; [assumption |].
  destruct (Z.eq_dec (Z.lxor a b) 0) as [E | NE]; [lia |].
  apply (Z.log2_lt_pow2 _ 8); [lia |].
  pose proof (Z.log2_lxor a b ltac:(lia) ltac:(lia)) as Hl.
  destruct (Z.eq_dec a 0) as [-> | Na]; destruct (Z.eq_dec b 0) as [-> | Nb];
    cbn [Z.log2] in Hl; try lia.
  - assert (Z.log2 b < 8) by (apply Z.log2_lt_pow2; lia). lia.
  - assert (Z.log2 a < 8) by (apply Z.log2_lt_pow2; lia). lia.
  - assert (Z.log2 a < 8) by (apply Z.log2_lt_pow2; lia).
    assert (Z.log2 b < 8) by (apply Z.log2_lt_pow2; lia). lia.
Qed.

Lemma or_xor_byte (x y : list Z) (v : Z) :
  is_byte v -> bytes_ok x -> bytes_ok y -> is_byte (Subtle.or_xor v x y).
Proof.
  intros Hv Hx. revert v y Hv.
  induction Hx as [| a x Ha Hx IH]; intros v y Hv Hy; cbn [Subtle.or_xor].
  - assumption.
  - destruct Hy as [| b y Hb Hy]; [assumption |].
    apply IH; [| assumption]. apply byte_lor; [assumption |].
    apply byte_lxor; assumption.
Qed.

Lemma or_xor_zero (x y : list Z) (v : Z) :
  length x = length y -> Subtle.or_xor v x y = 0 -> v = 0 /\ x = y.
Proof.
  revert v y. induction x as [| a x IH]; intros v [| b y] Hlen H;
    cbn [length] in Hlen; try discriminate; cbn [Subtle.or_xor] in H.
  - auto.
  - apply IH in H; [| congruence]. destruct H as [H ->].
    apply Z.lor_eq_0_iff in H. destruct H as [-> H].
    apply Z.lxor_eq in H. subst. auto.
Qed.

Lemma ConstantTimeByteEq_zero (v : Z) :
  is_byte v -> Subtle.ConstantTimeByteEq v 0 = 1 -> v = 0.
Proof.
  unfold is_byte, Subtle.ConstantTimeByteEq. intros Hv H.
  rewrite Z.lxor_0_r in H.
  destruct (Z.eq_dec v 0) as [E | NE]; [assumption |].
  rewrite Z.mod_small in H by lia.
  rewrite Z.shiftr_div_pow2 in H by lia.
  rewrite Z.div_small in H by lia. discriminate.
Qed.

(** On byte slices [hmac.Equal] decides equality. *)
Lemma hmac_Equal_true (x y : list Z) :
  bytes_ok x -> bytes_ok y -> hmac_Equal x y = true -> x = y.
Proof.
  intros Hx Hy. unfold hmac_Equal, Subtle.ConstantTimeCompare.
  destruct (Nat.eqb_spec (length x) (length y)) as [E | NE]; cbn [negb].
  - intros H. apply Z.eqb_eq in H.
    apply ConstantTimeByteEq_zero in H.
    + apply or_xor_zero in H; tauto.
    + apply or_xor_byte; try assumption. unfold is_byte. lia.
  - discriminate.
Qed.

(** * The signer and validator *)

Lemma nonempty_length (s : string) : s <> ""%string -> (String.length s =? 0)%nat = false.
Proof. destruct s; [congruence | reflexivity]. Qed.

Lemma bytes_ok_app (x y : list Z) : bytes_ok x -> bytes_ok y -> bytes_ok (x ++ y).
Proof. intros Hx Hy. apply Forall_app. split; assumption. Qed.

Lemma bytes_ok_firstn (n : nat) (x : list Z) : bytes_ok x -> bytes_ok (firstn n x).
Proof.
  unfold bytes_ok. intros Hx. revert n.
  induction Hx as [| b x Hb Hx IH]; intros [| n]; cbn [firstn];
    constructor; auto.
Qed.

Lemma bytes_ok_repeat (b : Z) (n : nat) : is_byte b -> bytes_ok (repeat b n).
Proof.
  intros Hb. unfold bytes_ok.
  induction n; cbn [repeat]; constructor; assumption.
Qed.

(** What [ValidateID] does with a token that decodes: everything is
    decided by the bytes after the first 32. *)
Lemma ValidateID_decoded (id signingKey : string) (d : list Z) (w : world) :
  Base64.DecodeString id = (d, None) ->
  (idLength <= length d)%nat ->
  ValidateID id signingKey w =
  if hmac_Equal (skipn idLength d) (GenerateRandomHMAC signingKey)
  then Return (id, None) w
  else Return (InvalidSessionID, Some hmac_not_equal) w.
Proof.
  intros Hd Hlen. unfold ValidateID, DecodeSessionID. rewrite Hd.
  unfold bind, slice_from.
  destruct (Nat.leb_spec idLength (length d)) as [_ | Hlt]; [| lia].
  unfold ret. cbn [continue].
  destruct (hmac_Equal _ _); reflexivity.
Qed.

Lemma ValidateID_short (id signingKey : string) (d : list Z) (w : world) :
  Base64.DecodeString id = (d, None) ->
  (length d < idLength)%nat ->
  ValidateID id signingKey w = Panic "slice bounds out of range".
Proof.
  intros Hd Hlen. unfold ValidateID, DecodeSessionID. rewrite Hd.
  unfold bind, slice_from.
  destruct (Nat.leb_spec idLength (length d)) as [Hle | _]; [lia |].
  reflexivity.
Qed.

Lemma ValidateID_undecodable (id signingKey : string) (d : list Z) (e : error) (w : world) :
  Base64.DecodeString id = (d, Some e) ->
  ValidateID id signingKey w = Return (InvalidSessionID, Some e) w.
Proof.
  intros Hd. unfold ValidateID, DecodeSessionID. rewrite Hd. reflexivity.
Qed.

(** Any 32 bytes followed by the digest of the key alone form a token that
    validates. *)
Lemma ValidateID_accepts (signingKey : string) (r : list Z) (w : world) :
  length r = idLength -> bytes_ok r ->
  let id := Base64.EncodeToString (r ++ GenerateRandomHMAC signingKey) in
  ValidateID id signingKey w = Return (id, None) w.
Proof.
  intros Hlen Hok id.
  rewrite (ValidateID_decoded id signingKey (r ++ GenerateRandomHMAC signingKey)).
  - rewrite <- Hlen, skipn_app, Nat.sub_diag, skipn_all, skipn_O.
    cbn [app]. rewrite hmac_Equal_same. reflexivity.
  - apply DecodeString_EncodeToString, bytes_ok_app;
      [assumption | apply GenerateRandomHMAC_ok].
  - rewrite length_app. lia.
Qed.

(** What a successful [NewSessionID] returns and leaves behind. *)
Lemma NewSessionID_success (signingKey : string) (w w' : world) (t : SID) :
  NewSessionID signingKey w = Return (t, None) w' ->
  signingKey <> ""%string /\
  (idLength <= length (rand_Reader w))%nat /\
  t = Base64.EncodeToString
        (firstn idLength (rand_Reader w) ++ GenerateRandomHMAC signingKey) /\
  w' = mkWorld (skipn idLength (rand_Reader w)) t.
Proof.
  unfold NewSessionID.
  destruct signingKey as [| c k]; cbn [String.length Nat.eqb].
  - unfold ret. discriminate.
  - unfold bind, GenerateRandomBytes, bind, rand_Read.
    destruct (Nat.leb_spec idLength (length (rand_Reader w))) as [Hle | Hlt];
      unfold ret, set_generatedSID; cbn [continue rand_Reader generatedSID].
    + intros H. injection H as Ht Hw. subst. repeat split; [discriminate | assumption].
    + discriminate.
Qed.

Lemma NewSessionID_mints (signingKey : string) (w : world) :
  signingKey <> ""%string ->
  (idLength <= length (rand_Reader w))%nat ->
  let t := Base64.EncodeToString
             (firstn idLength (rand_Reader w) ++ GenerateRandomHMAC signingKey) in
  NewSessionID signingKey w =
  Return (t, None) (mkWorld (skipn idLength (rand_Reader w)) t).
Proof.
  intros Hk Hlen t. unfold NewSessionID.
  rewrite nonempty_length by assumption.
  unfold bind, GenerateRandomBytes, bind, rand_Read.
  destruct (Nat.leb_spec idLength (length (rand_Reader w))) as [_ | Hlt]; [| lia].
  reflexivity.
Qed.

(** C3: for every non-empty signing key and every 32-byte sequence [r],
    whether or not [NewSessionID] ever produced it, [ValidateID] accepts the
    token base64url(r ++ HMAC-SHA256(key, empty message)): the digest it
    compares against is computed from the key alone. *)
Theorem ValidateID_accepts_any_random_component
  (signingKey : string) (r : list Z) (w : world) :
  signingKey <> ""%string ->
  length r = 32%nat ->
  bytes_ok r ->
  let id := Base64.EncodeToString
              (r ++ hmac_sha256 (bytes_of_string signingKey) []) in
  ValidateID id signingKey w = Return (id, None) w.
Proof.
  intros _ Hlen Hok. apply ValidateID_accepts; assumption.
Qed.

Lemma ValidateID_accepts_any_random_component_witness :
  "k"%string <> ""%string /\
  length (repeat 7 32) = 32%nat /\
  bytes_ok (repeat 7 32) /\
  let id := Base64.EncodeToString
              (repeat 7 32 ++ hmac_sha256 (bytes_of_string "k") []) in
  ValidateID id "k" w0 = Return (id, None) w0.
Proof.
  assert (Hk : "k"%string <> ""%string) by discriminate.
  assert (Hok : bytes_ok (repeat 7 32))
    by (apply bytes_ok_repeat; unfold is_byte; lia).
  split; [exact Hk |]. split; [reflexivity |]. split; [exact Hok |].
  exact (ValidateID_accepts_any_random_component "k" (repeat 7 32) w0
           Hk eq_refl Hok).
Defined.

(** C6: for every non-empty signing key, when [NewSessionID] succeeds with
    token [t], [ValidateID] on [t] with the same key succeeds and returns
    [t] itself. *)
Theorem mint_then_validate (signingKey : string) (w w' : world) (t : SID) :
  signingKey <> ""%string ->
  bytes_ok (rand_Reader w) ->
  NewSessionID signingKey w = Return (t, None) w' ->
  ValidateID t signingKey w' = Return (t, None) w'.
Proof.
  intros _ Hok Hmint.
  apply NewSessionID_success in Hmint.
  destruct Hmint as (_ & Hlen & -> & _).
  apply ValidateID_accepts.
  - rewrite length_firstn. lia.
  - apply bytes_ok_firstn, Hok.
Qed.

Lemma mint_then_validate_witness :
  let t := Base64.EncodeToString
             (repeat 0 32 ++ GenerateRandomHMAC "k") in
  "k"%string <> ""%string /\
  bytes_ok (rand_Reader w0) /\
  NewSessionID "k" w0 = Return (t, None) (mkWorld [] t) /\
  ValidateID t "k" (mkWorld [] t) = Return (t, None) (mkWorld [] t).
Proof.
  intros t.
  assert (Hk : "k"%string <> ""%string) by discriminate.
  assert (Hok : bytes_ok (rand_Reader w0))
    by (apply bytes_ok_repeat; unfold is_byte; lia).
  assert (Hmint : NewSessionID "k" w0 = Return (t, None) (mkWorld [] t))
    by (vm_compute; reflexivity).
  split; [exact Hk |]. split; [exact Hok |]. split; [exact Hmint |].
  exact (mint_then_validate "k" w0 (mkWorld [] t) t Hk Hok Hmint).
Defined.

(** C1: the token minted by [NewSessionID] for the key "k" from 32 zero
    bytes of entropy is the base64-URL text of those bytes followed by the
    HMAC-SHA256 of the EMPTY message, and that digest differs from the
    HMAC-SHA256 of the 32 random bytes: the signature half of the minted
    token is not the keyed hash of its random component. *)
Theorem NewSessionID_signs_empty_message :
  let r := repeat 0 32 in
  let key := bytes_of_string "k" in
  let t := Base64.EncodeToString (r ++ hmac_sha256 key []) in
  NewSessionID "k" (mkWorld r "") = Return (t, None) (mkWorld [] t) /\
  hmac_sha256 key [] <> hmac_sha256 key r.
Proof.
  split.
  - vm_compute. reflexivity.
  - vm_compute. discriminate.
Qed.

(** C2: take the token minted for the key "k" from 32 zero bytes of
    entropy, flip the lowest bit of the first byte of its random component
    and encode it again: the result is a different token, and [ValidateID]
    with the same key accepts it instead of failing with the
    signature-mismatch error. *)
Theorem ValidateID_accepts_flipped_random_bit :
  let t := Base64.EncodeToString (repeat 0 32 ++ GenerateRandomHMAC "k") in
  let w := mkWorld [] t in
  let t' := Base64.EncodeToString (flip_bit 0 (fst (Base64.DecodeString t))) in
  NewSessionID "k" w0 = Return (t, None) w /\
  t' <> t /\
  ValidateID t' "k" w = Return (t', None) w.
Proof.
  split; [| split].
  - vm_compute. reflexivity.
  - vm_compute. discriminate.
  - vm_compute. reflexivity.
Qed.

(** C4: on the token "AA==", which decodes to a single byte, [ValidateID]
    panics on the slice expression [decodedID[idLength:]] for every signing
    key instead of returning a (SID, error) pair. *)
Theorem ValidateID_panics_on_short_token (signingKey : string) (w : world) :
  ValidateID "AA==" signingKey w = Panic "slice bounds out of range".
Proof.
  apply (ValidateID_short "AA==" signingKey [0] w).
  - vm_compute. reflexivity.
  - vm_compute. lia.
Qed.

(** The decoder fails with [CorruptInputError] only. *)
Lemma after_padding_error (rest : string) (si : Z) (dbuf d : list Z) (e : error) :
  Base64.after_padding rest si dbuf = (d, Some e) -> is_CorruptInputError e = true.
Proof.
  unfold Base64.after_padding.
  destruct (Base64.skip_newlines rest si) as [rest' si'].
  destruct rest'; intros H; inversion H. reflexivity.
Qed.

Lemma decode_error_kind (src : string) :
  forall (si : Z) (dbuf d : list Z) (e : error),
  Base64.decode src si dbuf = (d, Some e) -> is_CorruptInputError e = true.
Proof.
  induction src as [| c rest IH]; intros si dbuf d e H; cbn [Base64.decode] in H.
  - destruct dbuf; inversion H. reflexivity.
  - destruct (negb (Base64.decodeMap c =? 255)).
    + destruct (length dbuf =? 3)%nat.
      * destruct (Base64.decode rest (si + 1) []) as [bs err] eqn:E.
        inversion H; subst. apply (IH _ _ _ _ E).
      * apply (IH _ _ _ _ H).
    + destruct (Base64.is_newline c); [apply (IH _ _ _ _ H) |].
      destruct (negb (Ascii.eqb c Base64.padChar)); [inversion H; reflexivity |].
      destruct (length dbuf) as [| [| [| n]]]; try (inversion H; reflexivity).
      * destruct (Base64.skip_newlines rest (si + 1)) as [rest' si'].
        destruct rest' as [| c' rest'']; [inversion H; reflexivity |].
        destruct (negb (Ascii.eqb c' Base64.padChar)); [inversion H; reflexivity |].
        apply (after_padding_error _ _ _ _ _ H).
      * apply (after_padding_error _ _ _ _ _ H).
Qed.

(** A token that decodes to at least 32 bytes but not to 32 + 32 reaches
    the comparison, which fails on the length. *)
Lemma ValidateID_wrong_length (id signingKey : string) (d : list Z) (w : world) :
  Base64.DecodeString id = (d, None) ->
  (32 <= length d)%nat ->
  length d <> (32 + 32)%nat ->
  ValidateID id signingKey w = Return (InvalidSessionID, Some hmac_not_equal) w.
Proof.
  intros Hd Hge Hne.
  rewrite (ValidateID_decoded id signingKey d) by assumption.
  rewrite hmac_Equal_length; [reflexivity |].
  rewrite length_skipn, GenerateRandomHMAC_length. unfold idLength. lia.
Qed.

(** C5: for every signing key, [ValidateID] does not reject a token of the
    wrong decoded length with the malformed-token error.  The token "AA=="
    decodes to one byte and [ValidateID] panics on it; a token of 44 letters
    decodes to 33 bytes, not 32 + 32, and [ValidateID] returns the error
    "hmac not equal", which is not the decoder's error.  The length of the
    decoded token is never checked. *)
Theorem ValidateID_wrong_length_not_malformed (signingKey : string) (w : world) :
  let id := "AAAAAAAAAAAAAAAAAAAAAAAAAAAAAAAAAAAAAAAAAAAA"%string in
  Base64.DecodeString "AA==" = ([0], None) /\
  ValidateID "AA==" signingKey w = Panic "slice bounds out of range" /\
  Base64.DecodeString id = (repeat 0 33, None) /\
  ValidateID id signingKey w =
    Return (InvalidSessionID, Some (ErrorsNew "hmac not equal")) w /\
  is_CorruptInputError (ErrorsNew "hmac not equal") = false.
Proof.
  intros id.
  assert (Base64.DecodeString "AA==" = ([0], None)) as H1
    by (vm_compute; reflexivity).
  assert (Base64.DecodeString id = (repeat 0 33, None)) as H33
    by (vm_compute; reflexivity).
  split; [exact H1 |]. split; [| split; [exact H33 | split; [| reflexivity]]].
  - apply (ValidateID_short "AA==" signingKey [0] w H1). vm_compute. lia.
  - apply (ValidateID_wrong_length id signingKey (repeat 0 33) w H33).
    + rewrite repeat_length. lia.
    + rewrite repeat_length. lia.
Qed.

(** C7 as stated fails: minting changes the package variable
    [generatedSID]. *)
Lemma NewSessionID_writes_generatedSID :
  exists t w',
    NewSessionID "k" w0 = Return (t, None) w' /\
    generatedSID w' = t /\
    generatedSID w' <> generatedSID w0.
Proof.
  eexists. eexists. split; [vm_compute; reflexivity |].
  split; [reflexivity | vm_compute; discriminate].
Qed.

(** C7 (amended): besides consuming entropy, [NewSessionID] writes one
    package variable: when it succeeds, [generatedSID] holds the minted
    token; when it returns an error, [generatedSID] is unchanged; nothing
    else is recorded.  [ValidateID] neither reads nor writes the process
    state: its outcome is the same in any two states and leaves the state as
    it was.  (The call returns [r] either directly or, where a failed read
    of the entropy source is reported as an error, after that failure.) *)
Theorem NewSessionID_effects
  (signingKey id : string) (w w2 w' : world) (r : SID * option error) :
  NewSessionID signingKey w = Return r w' \/
  NewSessionID signingKey w = RandFailed (Return r w') ->
  (exists used, rand_Reader w = used ++ rand_Reader w') /\
  generatedSID w' = match snd r with
                    | None => fst r
                    | Some _ => generatedSID w
                    end /\
  match ValidateID id signingKey w, ValidateID id signingKey w2 with
  | Return r1 w1, Return r2 w2' => r1 = r2 /\ w1 = w /\ w2' = w2
  | Panic m1, Panic m2 => m1 = m2
  | _, _ => False
  end.
Proof.
  intros Hret.
  assert ((exists used, rand_Reader w = used ++ rand_Reader w') /\
          generatedSID w' = match snd r with
                            | None => fst r
                            | Some _ => generatedSID w
                            end) as Hframe.
  { unfold NewSessionID in Hret.
    destruct (String.length signingKey =? 0)%nat.
    - unfold ret in Hret. destruct Hret as [Hret | Hret]; [| discriminate].
      injection Hret as <- <-. split; [exists [] |]; reflexivity.
    - unfold bind, GenerateRandomBytes, bind, rand_Read in Hret.
      destruct (idLength <=? length (rand_Reader w))%nat;
        unfold ret, set_generatedSID in Hret; cbn [continue] in Hret.
      + destruct Hret as [Hret | Hret]; [| discriminate].
        injection Hret as <- <-. cbn [rand_Reader generatedSID fst snd].
        split; [| reflexivity].
        exists (firstn idLength (rand_Reader w)).
        symmetry. apply firstn_skipn.
      + destruct Hret as [Hret | Hret]; [discriminate |].
        injection Hret as <- <-. split; [exists [] |]; reflexivity. }
  destruct Hframe as [Hused Hgen]. split; [exact Hused |]. split; [exact Hgen |].
  unfold ValidateID. destruct (DecodeSessionID id) as [d [e |]].
  - unfold ret. auto.
  - unfold bind, slice_from.
    destruct (idLength <=? length d)%nat; [| reflexivity].
    unfold ret. cbn [continue]. destruct (hmac_Equal _ _); auto.
Qed.

Lemma NewSessionID_effects_witness :
  let t := Base64.EncodeToString (repeat 0 32 ++ GenerateRandomHMAC "k") in
  let w' := mkWorld [] t in
  (NewSessionID "k" w0 = Return (t, None) w' \/
   NewSessionID "k" w0 = RandFailed (Return (t, None) w')) /\
  (exists used, rand_Reader w0 = used ++ rand_Reader w') /\
  generatedSID w' = t /\
  match ValidateID t "k" w0, ValidateID t "k" w' with
  | Return r1 w1, Return r2 w2' => r1 = r2 /\ w1 = w0 /\ w2' = w'
  | Panic m1, Panic m2 => m1 = m2
  | _, _ => False
  end.
Proof.
  intros t w'.
  assert (Hmint : NewSessionID "k" w0 = Return (t, None) w' \/
                  NewSessionID "k" w0 = RandFailed (Return (t, None) w'))
    by (left; vm_compute; reflexivity).
  split; [exact Hmint |].
  exact (NewSessionID_effects "k" t w0 w' w' (t, None) Hmint).
Defined.

(** ** Tampering with a minted token *)

Lemma flip_bit_length (i : nat) (bs : list Z) : length (flip_bit i bs) = length bs.
Proof. apply length_alter. Qed.

Lemma flip_bit_ok (i : nat) (bs : list Z) : bytes_ok bs -> bytes_ok (flip_bit i bs).
Proof.
  intros Hok. apply Forall_alter; [exact Hok |].
  intros b _ Hb. apply byte_lxor; [exact Hb |].
  assert (0 <= Z.of_nat (i mod 8) < 8) as Hk.
  { pose proof (Nat.mod_upper_bound i 8). lia. }
  unfold is_byte. split; [apply Z.pow_nonneg; lia |].
  change 256 with (2 ^ 8). apply Z.pow_lt_mono_r; lia.
Qed.

Lemma flip_bit_changes (i : nat) (bs : list Z) :
  (i / 8 < length bs)%nat -> flip_bit i bs <> bs.
Proof.
  intros Hi Heq. unfold flip_bit in Heq.
  assert (0 < 2 ^ Z.of_nat (i mod 8)) as Hpos by (apply Z.pow_pos_nonneg; lia).
  remember (2 ^ Z.of_nat (i mod 8)) as k eqn:Ek. clear Ek.
  destruct (lookup_lt_is_Some_2 bs (i / 8)%nat Hi) as [b Hb].
  pose proof (list_lookup_alter_eq (fun b => Z.lxor b k) bs (i / 8)%nat) as Hf.
  rewrite Heq, Hb in Hf. injection Hf as Hf.
  assert (Z.lxor b (Z.lxor b k) = 0) as H0
    by (rewrite <- Hf; apply Z.lxor_nilpotent).
  rewrite <- Z.lxor_assoc, Z.lxor_nilpotent, Z.lxor_0_l in H0.
  lia.
Qed.

(** X10: flipping any bit of the random component of a minted token and
    encoding the bytes again gives a token that [ValidateID] still accepts
    under the same key. *)
Lemma flipped_random_bit_accepted
  (signingKey : string) (w w' : world) (t : SID) (i : nat) :
  bytes_ok (rand_Reader w) ->
  NewSessionID signingKey w = Return (t, None) w' ->
  (i < 8 * 32)%nat ->
  let t' := Base64.EncodeToString (flip_bit i (fst (Base64.DecodeString t))) in
  ValidateID t' signingKey w' = Return (t', None) w'.
Proof.
  intros Hok Hmint Hi.
  apply NewSessionID_success in Hmint. destruct Hmint as (_ & Hlen & -> & _).
  set (r := firstn idLength (rand_Reader w)).
  assert (length r = idLength) as Hr by (subst r; rewrite length_firstn; lia).
  assert (bytes_ok r) as Hrok by (apply bytes_ok_firstn, Hok).
  rewrite DecodeString_EncodeToString
    by (apply bytes_ok_app; [assumption | apply GenerateRandomHMAC_ok]).
  cbn [fst]. unfold flip_bit.
  assert (i / 8 < 32)%nat as Hdiv by (apply Nat.Div0.div_lt_upper_bound; lia).
  rewrite alter_app_l by (rewrite Hr; exact Hdiv).
  apply ValidateID_accepts.
  - rewrite length_alter. exact Hr.
  - apply (flip_bit_ok i r Hrok).
Qed.

(** X6: flipping any bit of the signature half of a minted token and
    encoding the bytes again gives a token that [ValidateID] rejects with
    "hmac not equal". *)
Lemma flipped_signature_bit_rejected
  (signingKey : string) (w w' : world) (t : SID) (i : nat) :
  bytes_ok (rand_Reader w) ->
  NewSessionID signingKey w = Return (t, None) w' ->
  (i < 8 * 32)%nat ->
  let t' := Base64.EncodeToString
              (flip_bit (8 * 32 + i) (fst (Base64.DecodeString t))) in
  ValidateID t' signingKey w' = Return (InvalidSessionID, Some hmac_not_equal) w'.
Proof.
  intros Hok Hmint Hi.
  apply NewSessionID_success in Hmint. destruct Hmint as (_ & Hlen & -> & _).
  set (r := firstn idLength (rand_Reader w)).
  set (mac := GenerateRandomHMAC signingKey).
  assert (length r = 32%nat) as Hr by (subst r; rewrite length_firstn; unfold idLength in *; lia).
  assert (bytes_ok r) as Hrok by (apply bytes_ok_firstn, Hok).
  assert (length mac = 32%nat) as Hm by apply GenerateRandomHMAC_length.
  assert (bytes_ok mac) as Hmok by apply GenerateRandomHMAC_ok.
  rewrite DecodeString_EncodeToString by (apply bytes_ok_app; assumption).
  cbn [fst].
  assert (i / 8 < 32)%nat as Hdiv by (apply Nat.Div0.div_lt_upper_bound; lia).
  assert (flip_bit (8 * 32 + i) (r ++ mac) = r ++ flip_bit i mac) as ->.
  { unfold flip_bit.
    replace (8 * 32 + i)%nat with (i + 32 * 8)%nat by lia.
    rewrite Nat.div_add, Nat.Div0.mod_add by lia.
    replace (i / 8 + 32)%nat with (length r + i / 8)%nat by lia.
    apply alter_app_r. }
  set (t' := Base64.EncodeToString _).
  rewrite (ValidateID_decoded t' signingKey (r ++ flip_bit i mac)).
  - unfold idLength. rewrite <- Hr, skipn_app, Nat.sub_diag, skipn_all, skipn_O.
    cbn [app]. fold mac.
    destruct (hmac_Equal (flip_bit i mac) mac) eqn:E; [| reflexivity].
    apply hmac_Equal_true in E; [| apply flip_bit_ok |]; try assumption.
    apply flip_bit_changes in E; [contradiction | lia].
  - apply DecodeString_EncodeToString, bytes_ok_app;
      [| apply flip_bit_ok]; assumption.
  - rewrite length_app. unfold idLength. lia.
Qed.

(** * The Redis store *)

Lemma run_GET_absent (key : string) (d : gmap string Redis.entry) :
  d !! key = None ->
  Redis.run (Redis.GET key) (up d) = (Redis.failed RedisNil, up d).
Proof. intros Hd. unfold Redis.run, up. cbn. rewrite Hd. reflexivity. Qed.

Lemma run_EXPIRE_absent (key : string) (dur : Z) (d : gmap string Redis.entry) :
  d !! key = None ->
  Redis.run (Redis.EXPIRE key dur) (up d) = (Redis.mkCmd [] false None, up d).
Proof. intros Hd. unfold Redis.run, up. cbn. rewrite Hd. reflexivity. Qed.

(** [Get] on a reachable server that has no entry for the SID. *)
Lemma Get_absent {A : Type} {J : JSON A}
  (rs : RedisStore) (sid : SID) (sessionState : A) (d : gmap string Redis.entry) :
  d !! getRedisKey sid = None ->
  Get rs sid sessionState (up d) = (Some RedisNil, sessionState, up d).
Proof.
  intros Hd. unfold Get, Redis.Exec, Redis.PipelineGet, Redis.PipelineExpire.
  cbn [Redis.run_all].
  rewrite run_GET_absent, run_EXPIRE_absent by assumption.
  reflexivity.
Qed.

(** C8: [Get] for a SID whose key is absent from a reachable server (here:
    deleted) returns go-redis's [redis.Nil], not [ErrStateNotFound], and
    leaves the caller's state and the server untouched. *)
Theorem Get_absent_returns_redis_Nil {A : Type} {J : JSON A}
  (rs : RedisStore) (sid : SID) (sessionState : A) (d : gmap string Redis.entry) :
  let s := up (delete (getRedisKey sid) d) in
  Get rs sid sessionState s = (Some RedisNil, sessionState, s) /\
  RedisNil <> ErrStateNotFound.
Proof.
  split; [| discriminate].
  apply Get_absent, lookup_delete_eq.
Qed.

(** C9: when the server cannot be reached the SET command fails with a
    network error, and [Save] still returns nil; the write is lost. *)
Theorem Save_drops_failed_write
  (rs : RedisStore) (sid : SID) (sessionState : bool) (d : gmap string Redis.entry) :
  let s := down d in
  let j := fst (Marshal sessionState) in
  Redis.cmd_err (fst (Redis.ClientSet (getRedisKey sid) j (SessionDuration rs) s))
    = Some RedisNetError /\
  Save rs sid sessionState s = (None, s).
Proof. split; reflexivity. Qed.

Lemma string_length_app (a b : string) :
  String.length (a ++ b) = (String.length a + String.length b)%nat.
Proof.
  induction a as [| c a IH]; simpl.
  - reflexivity.
  - rewrite IH. reflexivity.
Qed.

(** C10: the key that [Save], [Get] and [Delete] use is the SID text
    itself, with no prefix; in particular it is not "sid:" followed by the
    SID. *)
Theorem getRedisKey_has_no_prefix (sid : SID) :
  getRedisKey sid = sid /\ getRedisKey sid <> ("sid:" ++ sid)%string.
Proof.
  split; [reflexivity |].
  unfold getRedisKey. intros H.
  apply (f_equal String.length) in H.
  rewrite string_length_app in H. cbn in H. lia.
Qed.

(** * More on the token encoding *)

Lemma EncodeToString_length (src : list Z) :
  String.length (Base64.EncodeToString src) = (4 * ((length src + 2) / 3))%nat.
Proof.
  induction src as [| a | a b | a b c l IH] using list_ind3.
  - reflexivity.
  - reflexivity.
  - reflexivity.
  - cbn [Base64.EncodeToString String.length length]. rewrite IH.
    replace (S (S (S (length l))) + 2)%nat with ((length l + 2) + 1 * 3)%nat by lia.
    rewrite Nat.div_add by lia. lia.
Qed.

Lemma encode_not_space (i : Z) :
  0 <= i < 64 -> Ascii.eqb (Base64.encode i) " " = false.
Proof.
  intros Hi.
  assert (forallb (fun n => negb (Ascii.eqb (Base64.encode (Z.of_nat n)) " "))
            (seq 0 64) = true) as Hall by (vm_compute; reflexivity).
  rewrite forallb_forall in Hall.
  specialize (Hall (Z.to_nat i)).
  rewrite Z2Nat.id in Hall by lia.
  apply negb_true_iff, Hall, in_seq. lia.
Qed.

Lemma sextet_not_space (val k : Z) :
  Ascii.eqb (Base64.sextet val k) " " = false.
Proof. apply encode_not_space, six_range. Qed.

Lemma EncodeToString_no_space (src : list Z) :
  no_space (Base64.EncodeToString src) = true.
Proof.
  induction src as [| a | a b | a b c l IH] using list_ind3;
    cbn [Base64.EncodeToString no_space];
    rewrite ?sextet_not_space, ?IH; reflexivity.
Qed.

Lemma quantum_bytes_ok (dbuf : list Z) : bytes_ok (Base64.quantum_bytes dbuf).
Proof.
  unfold Base64.quantum_bytes. apply bytes_ok_firstn.
  repeat constructor; apply Z.mod_pos_bound; lia.
Qed.

Lemma after_padding_ok (rest : string) (si : Z) (dbuf : list Z) :
  bytes_ok (fst (Base64.after_padding rest si dbuf)).
Proof.
  unfold Base64.after_padding.
  destruct (Base64.skip_newlines rest si) as [rest' si'].
  destruct rest'; apply quantum_bytes_ok.
Qed.

(** The decoder produces bytes. *)
Lemma decode_ok (src : string) :
  forall (si : Z) (dbuf : list Z), bytes_ok (fst (Base64.decode src si dbuf)).
Proof.
  assert (bytes_ok []) as Hnil by constructor.
  induction src as [| c rest IH]; intros si dbuf; cbn [Base64.decode].
  - destruct dbuf; exact Hnil.
  - destruct (negb (Base64.decodeMap c =? 255)).
    + destruct (length dbuf =? 3)%nat; [| apply IH].
      specialize (IH (si + 1) []).
      destruct (Base64.decode rest (si + 1) []) as [bs err]. cbn [fst] in *.
      apply bytes_ok_app; [apply quantum_bytes_ok | exact IH].
    + destruct (Base64.is_newline c); [apply IH |].
      destruct (negb (Ascii.eqb c Base64.padChar)); [exact Hnil |].
      destruct (length dbuf) as [| [| [| n]]]; try exact Hnil.
      * destruct (Base64.skip_newlines rest (si + 1)) as [rest' si'].
        destruct rest' as [| c' rest'']; [exact Hnil |].
        destruct (negb (Ascii.eqb c' Base64.padChar)); [exact Hnil |].
        apply after_padding_ok.
      * apply after_padding_ok.
Qed.

Lemma DecodeSessionID_encoded (src : list Z) :
  bytes_ok src ->
  DecodeSessionID (Base64.EncodeToString src) = (src, None).
Proof.
  intros Hok. unfold DecodeSessionID.
  rewrite DecodeString_EncodeToString by assumption. reflexivity.
Qed.

(** X7: [DecodeSessionID] undoes the encoding that [NewSessionID] applies:
    for every byte slice, decoding its base64-URL text gives the slice back
    and no error. *)
Theorem DecodeSessionID_EncodeToString (src : list Z) :
  bytes_ok src ->
  DecodeSessionID (Base64.EncodeToString src) = (src, None).
Proof. apply DecodeSessionID_encoded. Qed.

Lemma DecodeSessionID_EncodeToString_witness :
  bytes_ok [104; 105; 33; 255; 0] /\
  DecodeSessionID (Base64.EncodeToString [104; 105; 33; 255; 0])
  = ([104; 105; 33; 255; 0], None).
Proof.
  assert (Hok : bytes_ok [104; 105; 33; 255; 0])
    by (repeat constructor; unfold is_byte; lia).
  split; [exact Hok |].
  exact (DecodeSessionID_EncodeToString [104; 105; 33; 255; 0] Hok).
Defined.

Lemma DecodeSessionID_cases (sid : string) :
  match DecodeSessionID sid with
  | (d, None) => bytes_ok d /\ Base64.DecodeString sid = (d, None)
  | (d, Some e) => d = [] /\ is_CorruptInputError e = true
  end.
Proof.
  unfold DecodeSessionID.
  pose proof (decode_ok sid 0 []) as Hok.
  pose proof (decode_error_kind sid 0 []) as Herr.
  fold (Base64.DecodeString sid) in Hok, Herr.
  destruct (Base64.DecodeString sid) as [d [e |]]; cbn [fst] in Hok.
  - split; [reflexivity | apply (Herr d e eq_refl)].
  - split; [exact Hok | reflexivity].
Qed.

(** X8: [DecodeSessionID] either returns bytes and no error, or the nil
    slice and a [base64.CorruptInputError]; it has no other result. *)
Theorem DecodeSessionID_result (sid : string) :
  match DecodeSessionID sid with
  | (d, None) => bytes_ok d /\ Base64.DecodeString sid = (d, None)
  | (d, Some e) => d = [] /\ is_CorruptInputError e = true
  end.
Proof. apply DecodeSessionID_cases. Qed.

(** * More on the signer and validator *)

(** X1: the outcomes of [NewSessionID].  It returns a token and no error
    only when the signing key is non-empty and the entropy source delivers
    32 bytes, and then it always does.  With an empty key it returns
    [InvalidSessionID] and "not signing key" and leaves the state as it was,
    the entropy source included.  When the key is non-empty and the source
    fails, the call stops in [crypto/rand] or, where the reader reports the
    failure as an error, returns [InvalidSessionID] and that error with
    [generatedSID] unchanged.  It has no panic of its own. *)
Theorem NewSessionID_outcome (signingKey : string) (w : world) :
  match NewSessionID signingKey w with
  | Return (sid, None) w' =>
      signingKey <> ""%string /\ (32 <= length (rand_Reader w))%nat
  | Return (sid, Some e) w' =>
      signingKey = ""%string /\ sid = InvalidSessionID /\
      e = ErrorsNew "not signing key" /\ w' = w
  | RandFailed next =>
      signingKey <> ""%string /\ (length (rand_Reader w) < 32)%nat /\
      exists w', next = Return (InvalidSessionID, Some ErrRandRead) w' /\
                 generatedSID w' = generatedSID w
  | Panic _ => False
  end.
Proof.
  unfold NewSessionID. destruct signingKey as [| c k];
    cbn [String.length Nat.eqb].
  - unfold ret. auto.
  - unfold bind, GenerateRandomBytes, bind, rand_Read, idLength.
    destruct (Nat.leb_spec 32 (length (rand_Reader w))) as [Hle | Hlt];
      unfold ret, set_generatedSID; cbn [continue].
    + split; [discriminate | exact Hle].
    + split; [discriminate |]. split; [exact Hlt |].
      exists w. split; reflexivity.
Qed.

(** X2: a minted token is 88 characters long and has no space in it; it
    decodes to 64 bytes, the 32 bytes that the entropy source delivered
    followed by the digest of the key; and minting takes exactly those 32
    bytes from the source. *)
Theorem minted_token_shape (signingKey : string) (w w' : world) (t : SID) :
  bytes_ok (rand_Reader w) ->
  NewSessionID signingKey w = Return (t, None) w' ->
  String.length t = 88%nat /\
  no_space t = true /\
  DecodeSessionID t =
    (firstn 32 (rand_Reader w) ++ GenerateRandomHMAC signingKey, None) /\
  rand_Reader w = firstn 32 (rand_Reader w) ++ rand_Reader w'.
Proof.
  intros Hok Hmint.
  apply NewSessionID_success in Hmint. unfold idLength in Hmint.
  destruct Hmint as (_ & Hlen & -> & ->).
  split; [| split; [| split]].
  - rewrite EncodeToString_length, length_app, length_firstn,
      GenerateRandomHMAC_length.
    replace (32 `min` length (rand_Reader w))%nat with 32%nat by lia.
    reflexivity.
  - apply EncodeToString_no_space.
  - apply DecodeSessionID_encoded, bytes_ok_app;
      [apply bytes_ok_firstn, Hok | apply GenerateRandomHMAC_ok].
  - cbn [rand_Reader]. symmetry. apply firstn_skipn.
Qed.

Lemma minted_token_shape_witness :
  let t := Base64.EncodeToString (repeat 0 32 ++ GenerateRandomHMAC "k") in
  bytes_ok (rand_Reader w0) /\
  NewSessionID "k" w0 = Return (t, None) (mkWorld [] t) /\
  String.length t = 88%nat /\
  no_space t = true /\
  DecodeSessionID t =
    (firstn 32 (rand_Reader w0) ++ GenerateRandomHMAC "k", None) /\
  rand_Reader w0 = firstn 32 (rand_Reader w0) ++ rand_Reader (mkWorld [] t).
Proof.
  intros t.
  assert (Hok : bytes_ok (rand_Reader w0))
    by (apply bytes_ok_repeat; unfold is_byte; lia).
  assert (Hmint : NewSessionID "k" w0 = Return (t, None) (mkWorld [] t))
    by (vm_compute; reflexivity).
  split; [exact Hok |]. split; [exact Hmint |].
  exact (minted_token_shape "k" w0 (mkWorld [] t) t Hok Hmint).
Defined.

Lemma ValidateID_ok_iff (id signingKey : string) (w : world) :
  ValidateID id signingKey w = Return (id, None) w <->
  exists d, DecodeSessionID id = (d, None) /\
            length d = 64%nat /\
            skipn 32 d = GenerateRandomHMAC signingKey.
Proof.
  pose proof (DecodeSessionID_cases id) as Hres.
  destruct (DecodeSessionID id) as [d [e |]] eqn:Hdec.
  - split.
    + unfold ValidateID. rewrite Hdec. unfold ret. discriminate.
    + intros (d' & Hd' & _). discriminate.
  - destruct Hres as [Hok Hd].
    destruct (Nat.lt_ge_cases (length d) 32) as [Hlt | Hge].
    + rewrite (ValidateID_short id signingKey d w Hd Hlt). split.
      * discriminate.
      * intros (d' & Hd' & Hlen & _). injection Hd' as <-. lia.
    + rewrite (ValidateID_decoded id signingKey d w Hd Hge). unfold idLength.
      destruct (hmac_Equal (skipn 32 d) (GenerateRandomHMAC signingKey)) eqn:E.
      * split; [intros _ | reflexivity].
        apply hmac_Equal_true in E;
          [| apply Forall_drop, Hok | apply GenerateRandomHMAC_ok].
        exists d. split; [reflexivity |]. split; [| exact E].
        apply (f_equal length) in E.
        rewrite length_skipn, GenerateRandomHMAC_length in E. lia.
      * split; [discriminate |].
        intros (d' & Hd' & _ & Heq). injection Hd' as <-.
        rewrite Heq, hmac_Equal_same in E. discriminate.
Qed.

(** X3: [ValidateID] returns the presented text and no error exactly when
    the text decodes to 64 bytes of which the last 32 are the digest of the
    signing key. *)
Theorem ValidateID_succeeds_iff (id signingKey : string) (w : world) :
  ValidateID id signingKey w = Return (id, None) w <->
  exists d, DecodeSessionID id = (d, None) /\
            length d = 64%nat /\
            skipn 32 d = GenerateRandomHMAC signingKey.
Proof. apply ValidateID_ok_iff. Qed.

Lemma ValidateID_cases (id signingKey : string) (w : world) :
  match ValidateID id signingKey w with
  | Return (sid, None) w' =>
      sid = id /\ sid <> InvalidSessionID /\ w' = w
  | Return (sid, Some e) w' =>
      sid = InvalidSessionID /\ w' = w /\
      (is_CorruptInputError e = true \/ e = hmac_not_equal)
  | Panic _ =>
      exists d, DecodeSessionID id = (d, None) /\ (length d < 32)%nat
  | RandFailed _ => False
  end.
Proof.
  pose proof (DecodeSessionID_cases id) as Hres.
  destruct (DecodeSessionID id) as [d [e |]] eqn:Hdec.
  - unfold ValidateID. rewrite Hdec. unfold ret. tauto.
  - destruct Hres as [Hok Hd].
    destruct (Nat.lt_ge_cases (length d) 32) as [Hlt | Hge].
    + rewrite (ValidateID_short id signingKey d w Hd Hlt). eauto.
    + rewrite (ValidateID_decoded id signingKey d w Hd Hge).
      destruct (hmac_Equal _ _).
      * repeat split. intros ->. vm_compute in Hd. injection Hd as <-.
        cbn in Hge. lia.
      * repeat split. right. reflexivity.
Qed.

(** X4: the three outcomes of [ValidateID].  It returns the presented
    text, which is then not empty, and no error; or [InvalidSessionID] and
    an error that is a [base64.CorruptInputError] or "hmac not equal"; or it
    panics, which happens exactly when the text decodes to fewer than 32
    bytes.  It never changes the process state. *)
Theorem ValidateID_outcomes (id signingKey : string) (w : world) :
  match ValidateID id signingKey w with
  | Return (sid, None) w' =>
      sid = id /\ sid <> InvalidSessionID /\ w' = w
  | Return (sid, Some e) w' =>
      sid = InvalidSessionID /\ w' = w /\
      (is_CorruptInputError e = true \/ e = hmac_not_equal)
  | Panic _ =>
      exists d, DecodeSessionID id = (d, None) /\ (length d < 32)%nat
  | RandFailed _ => False
  end.
Proof. apply ValidateID_cases. Qed.

(** X9: after a successful [NewSessionID], [IdHasMutated] answers true for
    the token just minted and false for every other text, and leaves the
    state alone. *)
Theorem IdHasMutated_after_mint
  (signingKey id : string) (w w' : world) (t : SID) :
  NewSessionID signingKey w = Return (t, None) w' ->
  exists b, IdHasMutated id w' = Return b w' /\ (b = true <-> id = t).
Proof.
  intros Hmint. apply NewSessionID_success in Hmint.
  destruct Hmint as (_ & _ & _ & ->).
  exists (String.eqb t id). split; [reflexivity |].
  rewrite String.eqb_eq. split; congruence.
Qed.

Lemma IdHasMutated_after_mint_witness :
  let t := Base64.EncodeToString (repeat 0 32 ++ GenerateRandomHMAC "k") in
  NewSessionID "k" w0 = Return (t, None) (mkWorld [] t) /\
  exists b, IdHasMutated "other" (mkWorld [] t) = Return b (mkWorld [] t) /\
            (b = true <-> "other"%string = t).
Proof.
  intros t.
  assert (Hmint : NewSessionID "k" w0 = Return (t, None) (mkWorld [] t))
    by (vm_compute; reflexivity).
  split; [exact Hmint |].
  exact (IdHasMutated_after_mint "k" "other" w0 (mkWorld [] t) t Hmint).
Defined.

(** ** Newlines in a token *)

Lemma newline_not_letter (c : ascii) :
  Base64.is_newline c = true -> Base64.decodeMap c = 0xFF.
Proof.
  unfold Base64.is_newline. intros H. apply orb_true_iff in H.
  destruct H as [H | H]; apply Ascii.eqb_eq in H; subst; reflexivity.
Qed.

Lemma skip_newlines_offset (s : string) :
  forall si sj, fst (Base64.skip_newlines s si) = fst (Base64.skip_newlines s sj).
Proof.
  induction s as [| c s IH]; intros si sj; cbn [Base64.skip_newlines].
  - reflexivity.
  - destruct (Base64.is_newline c); [apply IH | reflexivity].
Qed.

Lemma after_padding_offset (rest : string) (si sj : Z) (dbuf d : list Z) :
  Base64.after_padding rest si dbuf = (d, None) ->
  Base64.after_padding rest sj dbuf = (d, None).
Proof.
  unfold Base64.after_padding.
  pose proof (skip_newlines_offset rest si sj) as H.
  destruct (Base64.skip_newlines rest si) as [r1 x1].
  destruct (Base64.skip_newlines rest sj) as [r2 x2].
  cbn [fst] in H. subst r2. destruct r1; [trivial | discriminate].
Qed.

(** The offset of the input only shows in the error. *)
Lemma decode_offset (s : string) :
  forall (si sj : Z) (dbuf d : list Z),
  Base64.decode s si dbuf = (d, None) -> Base64.decode s sj dbuf = (d, None).
Proof.
  induction s as [| c rest IH]; intros si sj dbuf d H;
    cbn [Base64.decode] in *.
  - destruct dbuf; [assumption | discriminate].
  - destruct (negb (Base64.decodeMap c =? 255)).
    + destruct (length dbuf =? 3)%nat; [| apply (IH _ _ _ _ H)].
      destruct (Base64.decode rest (si + 1) []) as [bs err] eqn:E.
      injection H as <- ->.
      rewrite (IH _ (sj + 1) _ _ E). reflexivity.
    + destruct (Base64.is_newline c); [apply (IH _ _ _ _ H) |].
      destruct (negb (Ascii.eqb c Base64.padChar)); [discriminate |].
      destruct (length dbuf) as [| [| [| n]]]; try discriminate.
      * pose proof (skip_newlines_offset rest (si + 1) (sj + 1)) as Hs.
        destruct (Base64.skip_newlines rest (si + 1)) as [r1 x1].
        destruct (Base64.skip_newlines rest (sj + 1)) as [r2 x2].
        cbn [fst] in Hs. subst r2.
        destruct r1 as [| c' r]; [discriminate |].
        destruct (negb (Ascii.eqb c' Base64.padChar)); [discriminate |].
        apply (after_padding_offset _ _ _ _ _ H).
      * apply (after_padding_offset _ _ _ _ _ H).
Qed.

Lemma skip_newlines_insert_end (nl : ascii) (a b : string) :
  Base64.is_newline nl = true ->
  forall si sj,
  fst (Base64.skip_newlines (String.append a b) si) = EmptyString ->
  fst (Base64.skip_newlines (String.append a (String nl b)) sj) = EmptyString.
Proof.
  intros Hnl. induction a as [| c a IH]; intros si sj H; simpl in *.
  - rewrite Hnl. rewrite (skip_newlines_offset b _ si). exact H.
  - destruct (Base64.is_newline c); [apply (IH _ _ H) | discriminate].
Qed.

Lemma after_padding_insert (nl : ascii) (a b : string) (si sj : Z) (dbuf d : list Z) :
  Base64.is_newline nl = true ->
  Base64.after_padding (String.append a b) si dbuf = (d, None) ->
  Base64.after_padding (String.append a (String nl b)) sj dbuf = (d, None).
Proof.
  intros Hnl. unfold Base64.after_padding.
  pose proof (skip_newlines_insert_end nl a b Hnl si sj) as H.
  destruct (Base64.skip_newlines (String.append a b) si) as [r1 x1].
  destruct (Base64.skip_newlines (String.append a (String nl b)) sj) as [r2 x2].
  cbn [fst] in H. destruct r1; [| discriminate].
  rewrite (H eq_refl). trivial.
Qed.

Lemma skip_newlines_insert (nl : ascii) (a b : string) :
  Base64.is_newline nl = true ->
  forall si sj c r,
  fst (Base64.skip_newlines (String.append a b) si) = String c r ->
  fst (Base64.skip_newlines (String.append a (String nl b)) sj) = String c r \/
  exists a', r = String.append a' b /\
    fst (Base64.skip_newlines (String.append a (String nl b)) sj)
    = String c (String.append a' (String nl b)).
Proof.
  intros Hnl. induction a as [| c0 a IH]; intros si sj c r H; simpl in *.
  - left. rewrite Hnl. rewrite (skip_newlines_offset b _ si). exact H.
  - destruct (Base64.is_newline c0).
    + apply (IH _ _ _ _ H).
    + right. cbn [fst] in *. injection H as <- <-. exists a. auto.
Qed.

(** A newline put anywhere into a text that decodes does not change what
    it decodes to. *)
Lemma decode_insert_newline (nl : ascii) (b : string) :
  Base64.is_newline nl = true ->
  forall (a : string) (si sj : Z) (dbuf d : list Z),
  Base64.decode (String.append a b) si dbuf = (d, None) ->
  Base64.decode (String.append a (String nl b)) sj dbuf = (d, None).
Proof.
  intros Hnl. induction a as [| c a IH]; intros si sj dbuf d H.
  - simpl in *. cbn [Base64.decode].
    rewrite (newline_not_letter nl Hnl), Hnl. cbn [Z.eqb negb Pos.eqb].
    apply (decode_offset _ _ _ _ _ H).
  - simpl in *. cbn [Base64.decode] in *.
    destruct (negb (Base64.decodeMap c =? 255)).
    + destruct (length dbuf =? 3)%nat; [| apply (IH _ _ _ _ H)].
      destruct (Base64.decode (String.append a b) (si + 1) []) as [bs err] eqn:E.
      injection H as <- ->.
      rewrite (IH _ (sj + 1) _ _ E). reflexivity.
    + destruct (Base64.is_newline c); [apply (IH _ _ _ _ H) |].
      destruct (negb (Ascii.eqb c Base64.padChar)); [discriminate |].
      destruct (length dbuf) as [| [| [| n]]]; try discriminate.
      * pose proof (skip_newlines_insert nl a b Hnl (si + 1) (sj + 1)) as Hs.
        destruct (Base64.skip_newlines (String.append a b) (si + 1)) as [r1 x1].
        destruct (Base64.skip_newlines (String.append a (String nl b)) (sj + 1))
          as [r2 x2].
        cbn [fst] in Hs.
        destruct r1 as [| c' r]; [discriminate |].
        destruct (Hs c' r eq_refl) as [-> | (a' & -> & ->)].
        -- destruct (negb (Ascii.eqb c' Base64.padChar)); [discriminate |].
           apply (after_padding_offset _ _ _ _ _ H).
        -- destruct (negb (Ascii.eqb c' Base64.padChar)); [discriminate |].
           apply (after_padding_insert nl a' b _ _ _ _ Hnl H).
      * apply (after_padding_insert nl a b _ _ _ _ Hnl H).
Qed.

Lemma DecodeSessionID_ok (id : string) (d : list Z) :
  DecodeSessionID id = (d, None) <-> Base64.DecodeString id = (d, None).
Proof.
  unfold DecodeSessionID.
  destruct (Base64.DecodeString id) as [d' [e |]]; split; congruence.
Qed.

(** X5: the token text is not canonical.  When [ValidateID] accepts a
    text, it also accepts the text with a line feed or carriage return put
    in at any place, and returns that longer text as the SID. *)
Theorem ValidateID_ignores_newlines
  (a b signingKey : string) (nl : ascii) (w : world) :
  Base64.is_newline nl = true ->
  ValidateID (String.append a b) signingKey w
    = Return (String.append a b, None) w ->
  ValidateID (String.append a (String nl b)) signingKey w
    = Return (String.append a (String nl b), None) w.
Proof.
  intros Hnl H. apply ValidateID_ok_iff in H.
  destruct H as (d & Hd & Hlen & Hmac).
  apply ValidateID_ok_iff. exists d. split; [| auto].
  apply DecodeSessionID_ok. apply DecodeSessionID_ok in Hd.
  apply (decode_insert_newline nl b Hnl a 0 0 [] d Hd).
Qed.

Lemma ValidateID_ignores_newlines_witness :
  let a := "AAAAAAAAAAAAAAAAAAAAAAAAAAAAAAAAAAAAAAAAAAC"%string in
  let b := "LuZDECn1hy5dZepQhJQJb5QrIvrdENuNzW5iJOn9mIA=="%string in
  Base64.is_newline "010" = true /\
  ValidateID (String.append a b) "k" w0 = Return (String.append a b, None) w0 /\
  ValidateID (String.append a (String "010" b)) "k" w0
    = Return (String.append a (String "010" b), None) w0.
Proof.
  intros a b.
  assert (Hnl : Base64.is_newline "010" = true) by reflexivity.
  assert (H : ValidateID (String.append a b) "k" w0
              = Return (String.append a b, None) w0)
    by (vm_compute; reflexivity).
  split; [exact Hnl |]. split; [exact H |].
  exact (ValidateID_ignores_newlines a b "k" "010" w0 Hnl H).
Defined.

Lemma flipped_signature_bit_rejected_witness :
  let t := Base64.EncodeToString (repeat 0 32 ++ GenerateRandomHMAC "k") in
  let t' := Base64.EncodeToString
              (flip_bit (8 * 32 + 5) (fst (Base64.DecodeString t))) in
  bytes_ok (rand_Reader w0) /\
  NewSessionID "k" w0 = Return (t, None) (mkWorld [] t) /\
  (5 < 8 * 32)%nat /\
  ValidateID t' "k" (mkWorld [] t)
    = Return (InvalidSessionID, Some hmac_not_equal) (mkWorld [] t).
Proof.
  intros t t'.
  assert (Hok : bytes_ok (rand_Reader w0))
    by (apply bytes_ok_repeat; unfold is_byte; lia).
  assert (Hmint : NewSessionID "k" w0 = Return (t, None) (mkWorld [] t))
    by (vm_compute; reflexivity).
  assert (Hi : (5 < 8 * 32)%nat) by lia.
  split; [exact Hok |]. split; [exact Hmint |]. split; [exact Hi |].
  exact (flipped_signature_bit_rejected "k" w0 (mkWorld [] t) t 5 Hok Hmint Hi).
Defined.

Lemma flipped_random_bit_accepted_witness :
  let t := Base64.EncodeToString (repeat 0 32 ++ GenerateRandomHMAC "k") in
  let t' := Base64.EncodeToString
              (flip_bit 77 (fst (Base64.DecodeString t))) in
  bytes_ok (rand_Reader w0) /\
  NewSessionID "k" w0 = Return (t, None) (mkWorld [] t) /\
  (77 < 8 * 32)%nat /\
  ValidateID t' "k" (mkWorld [] t) = Return (t', None) (mkWorld [] t).
Proof.
  intros t t'.
  assert (Hok : bytes_ok (rand_Reader w0))
    by (apply bytes_ok_repeat; unfold is_byte; lia).
  assert (Hmint : NewSessionID "k" w0 = Return (t, None) (mkWorld [] t))
    by (vm_compute; reflexivity).
  assert (Hi : (77 < 8 * 32)%nat) by lia.
  split; [exact Hok |]. split; [exact Hmint |]. split; [exact Hi |].
  exact (flipped_random_bit_accepted "k" w0 (mkWorld [] t) t 77 Hok Hmint Hi).
Defined.

(** * More on the Redis store *)

Lemma formatSec_pos (dur : Z) : 0 < dur -> 0 < Redis.formatSec dur.
Proof.
  intros Hpos. unfold Redis.formatSec, Redis.Second.
  destruct (Z.ltb_spec 0 dur) as [_ | H]; [| lia].
  destruct (Z.ltb_spec dur 1000000000) as [Hlt | Hge]; cbn [andb]; [lia |].
  rewrite Z.quot_div_nonneg by lia.
  apply Z.div_str_pos. lia.
Qed.

Lemma run_GET_present (key : string) (d : gmap string Redis.entry) (e : Redis.entry) :
  d !! key = Some e ->
  Redis.run (Redis.GET key) (up d) = (Redis.mkCmd (Redis.value e) true None, up d).
Proof. intros Hd. unfold Redis.run, up. cbn. rewrite Hd. reflexivity. Qed.

Lemma run_EXPIRE_present (key : string) (seconds : Z) (d : gmap string Redis.entry)
  (e : Redis.entry) :
  d !! key = Some e ->
  Redis.run (Redis.EXPIRE key seconds) (up d)
  = (Redis.mkCmd [] true None,
     up (if seconds <=? 0 then delete key d
         else <[key := Redis.mkEntry (Redis.value e) (Some (seconds * 1000))]> d)).
Proof.
  intros Hd. unfold Redis.run, up. cbn [Redis.reachable Redis.db Redis.process].
  rewrite Hd. destruct (seconds <=? 0); reflexivity.
Qed.

(** [Get] for a SID that has an entry, at any session duration: the value
    is read before the EXPIRE takes effect. *)
Lemma Get_present_any {A : Type} {J : JSON A}
  (rs : RedisStore) (sid : SID) (sessionState v : A)
  (d : gmap string Redis.entry) (e : Redis.entry) (err : option error) :
  d !! getRedisKey sid = Some e ->
  Unmarshal (Redis.value e) sessionState = (v, err) ->
  Get rs sid sessionState (up d) =
  (err, v,
   up (if Redis.formatSec (SessionDuration rs) <=? 0
       then delete (getRedisKey sid) d
       else <[getRedisKey sid :=
                Redis.mkEntry (Redis.value e)
                  (Some (Redis.formatSec (SessionDuration rs) * 1000))]> d)).
Proof.
  intros Hd Hu. unfold Get, Redis.Exec, Redis.PipelineGet, Redis.PipelineExpire.
  cbn [Redis.run_all].
  rewrite (run_GET_present _ _ _ Hd), (run_EXPIRE_present _ _ _ _ Hd).
  cbn [Redis.first_err Redis.cmd_err nth Redis.cmd_val].
  rewrite Hu. destruct err; reflexivity.
Qed.

Lemma Get_present {A : Type} {J : JSON A}
  (rs : RedisStore) (sid : SID) (sessionState v : A)
  (d : gmap string Redis.entry) (e : Redis.entry) (err : option error) :
  0 < SessionDuration rs ->
  d !! getRedisKey sid = Some e ->
  Unmarshal (Redis.value e) sessionState = (v, err) ->
  Get rs sid sessionState (up d) =
  (err, v,
   up (<[getRedisKey sid :=
           Redis.mkEntry (Redis.value e)
             (Some (Redis.formatSec (SessionDuration rs) * 1000))]> d)).
Proof.
  intros Hpos Hd Hu. rewrite (Get_present_any rs sid sessionState v d e err Hd Hu).
  pose proof (formatSec_pos _ Hpos) as Hs.
  destruct (Z.leb_spec (Redis.formatSec (SessionDuration rs)) 0); [lia |].
  reflexivity.
Qed.



Lemma Save_reachable {A : Type} {J : JSON A}
  (rs : RedisStore) (sid : SID) (sessionState : A)
  (d : gmap string Redis.entry) (j : list Z) :
  Marshal sessionState = (j, None) ->
  Save rs sid sessionState (up d)
  = (None,
     up (<[getRedisKey sid :=
             Redis.mkEntry j (Redis.set_expiry (SessionDuration rs))]> d)).
Proof. intros Hm. unfold Save. rewrite Hm. reflexivity. Qed.



(** X13: when the server cannot be reached, [Get] returns the network
    error and changes neither the caller's state nor the server. *)
Theorem Get_unreachable {A : Type} {J : JSON A}
  (rs : RedisStore) (sid : SID) (sessionState : A) (d : gmap string Redis.entry) :
  Get rs sid sessionState (down d) = (Some RedisNetError, sessionState, down d).
Proof. reflexivity. Qed.



(** X15: on a reachable server [Delete] removes the entry of the SID and
    nothing else and returns nil; a [Get] for the SID then fails with
    [redis.Nil]; and deleting again returns nil and changes nothing. *)
Theorem Delete_then_Get {A : Type} {J : JSON A}
  (rs : RedisStore) (sid : SID) (sessionState : A) (d : gmap string Redis.entry) :
  let s := up (delete (getRedisKey sid) d) in
  Delete rs sid (up d) = (None, s) /\
  (forall k, k <> getRedisKey sid -> Redis.db s !! k = d !! k) /\
  Get rs sid sessionState s = (Some RedisNil, sessionState, s) /\
  Delete rs sid s = (None, s).
Proof.
  intros s. split; [reflexivity |]. split; [| split].
  - intros k Hk. subst s. cbn [Redis.db up]. apply lookup_delete_ne. congruence.
  - apply Get_absent, lookup_delete_eq.
  - subst s. unfold Delete, Redis.ClientDel, Redis.run, up.
    cbn [Redis.reachable Redis.db Redis.process].
    rewrite delete_delete_eq. reflexivity.
Qed.

(** X16: when the server cannot be reached the DEL command fails with a
    network error, and [Delete] still returns nil; the entry stays. *)
Theorem Delete_drops_failed_command
  (rs : RedisStore) (sid : SID) (d : gmap string Redis.entry) :
  Redis.cmd_err (fst (Redis.ClientDel (getRedisKey sid) (down d)))
    = Some RedisNetError /\
  Delete rs sid (down d) = (None, down d).
Proof. split; reflexivity. Qed.

(** * Sessions over HTTP *)

Lemma Split_length (s : string) :
  length (Split s " ") = S (count_space s).
Proof.
  induction s as [| c s IH]; cbn [Split count_space].
  - reflexivity.
  - destruct (Ascii.eqb c " ").
    + cbn [length]. rewrite IH. reflexivity.
    + destruct (Split s " ") as [| h t]; [discriminate |].
      cbn [length] in *. lia.
Qed.

Lemma Split_no_space (s : string) :
  no_space s = true -> Split s " " = [s].
Proof.
  induction s as [| c s IH]; cbn [Split no_space]; intros H.
  - reflexivity.
  - apply andb_true_iff in H. destruct H as [Hc Hs].
    apply negb_true_iff in Hc. rewrite Hc, (IH Hs). reflexivity.
Qed.

Lemma Split_field (a b : string) :
  no_space a = true ->
  Split (String.append a (String " " b)) " " = a :: Split b " ".
Proof.
  induction a as [| c a IH]; simpl; intros H.
  - reflexivity.
  - apply andb_true_iff in H. destruct H as [Hc Ha].
    apply negb_true_iff in Hc. rewrite Hc, (IH Ha). reflexivity.
Qed.

Lemma no_space_count (s : string) :
  no_space s = true -> count_space s = 0%nat.
Proof.
  induction s as [| c s IH]; cbn [no_space count_space]; intros H.
  - reflexivity.
  - apply andb_true_iff in H. destruct H as [Hc Hs].
    apply negb_true_iff in Hc. rewrite Hc, (IH Hs). reflexivity.
Qed.

Lemma GetSessionID_credential (r : http.Request) (signingKey : string) :
  GetSessionID r signingKey =
  let s := Split (credential r) " " in
  match length s with
  | 0%nat | 1%nat => ret (InvalidSessionID, Some ErrNoSessionID)
  | 2%nat =>
      if negb (String.eqb (nth 0 s EmptyString) "Bearer")
      then ret (InvalidSessionID, Some ErrInvalidScheme)
      else
        do (sid, err) <- ValidateID (nth (length s - 1) s EmptyString) signingKey;
        match err with
        | Some e => ret (InvalidSessionID, Some e)
        | None => ret (sid, None)
        end
  | _ => ret (InvalidSessionID, Some ErrInvalidScheme)
  end.
Proof. reflexivity. Qed.

(** X17: when the credential has no space in it (no Authorization header
    and no [auth] parameter, an empty value, or a lone word such as
    "Bearer"), [GetSessionID] returns [InvalidSessionID] and
    [ErrNoSessionID]. *)
Theorem GetSessionID_no_credential
  (r : http.Request) (signingKey : string) (w : world) :
  no_space (credential r) = true ->
  GetSessionID r signingKey w = Return (InvalidSessionID, Some ErrNoSessionID) w.
Proof.
  intros H. rewrite GetSessionID_credential.
  rewrite (Split_no_space _ H). reflexivity.
Qed.

Lemma GetSessionID_no_credential_witness :
  no_space (credential (http.mkRequest ∅ ∅)) = true /\
  GetSessionID (http.mkRequest ∅ ∅) "k" w0
    = Return (InvalidSessionID, Some ErrNoSessionID) w0.
Proof.
  assert (H : no_space (credential (http.mkRequest ∅ ∅)) = true)
    by (vm_compute; reflexivity).
  split; [exact H |].
  exact (GetSessionID_no_credential (http.mkRequest ∅ ∅) "k" w0 H).
Defined.

(** X18: a credential of two fields whose first field is not exactly
    "Bearer" is rejected with [ErrInvalidScheme]; the token is not looked
    at. *)
Theorem GetSessionID_wrong_scheme
  (r : http.Request) (signingKey scheme tok : string) (w : world) :
  credential r = String.append scheme (String " " tok) ->
  no_space scheme = true ->
  no_space tok = true ->
  scheme <> "Bearer"%string ->
  GetSessionID r signingKey w = Return (InvalidSessionID, Some ErrInvalidScheme) w.
Proof.
  intros Hc Hs Ht Hne. rewrite GetSessionID_credential, Hc.
  rewrite (Split_field _ _ Hs), (Split_no_space _ Ht).
  cbn [length nth].
  destruct (String.eqb_spec scheme "Bearer") as [E | _]; [contradiction |].
  reflexivity.
Qed.

Lemma GetSessionID_wrong_scheme_witness :
  credential (with_header "bearer AA==") = String.append "bearer" (String " " "AA==") /\
  no_space "bearer" = true /\
  no_space "AA==" = true /\
  "bearer"%string <> "Bearer"%string /\
  GetSessionID (with_header "bearer AA==") "k" w0
    = Return (InvalidSessionID, Some ErrInvalidScheme) w0.
Proof.
  assert (Hc : credential (with_header "bearer AA==")
               = String.append "bearer" (String " " "AA=="))
    by (vm_compute; reflexivity).
  assert (Hs : no_space "bearer" = true) by reflexivity.
  assert (Ht : no_space "AA==" = true) by reflexivity.
  assert (Hne : "bearer"%string <> "Bearer"%string) by discriminate.
  split; [exact Hc |]. split; [exact Hs |]. split; [exact Ht |].
  split; [exact Hne |].
  exact (GetSessionID_wrong_scheme (with_header "bearer AA==") "k"
           "bearer" "AA==" w0 Hc Hs Ht Hne).
Defined.

(** X19: a credential with two or more spaces in it is rejected with
    [ErrInvalidScheme], whatever its first field is. *)
Theorem GetSessionID_extra_fields
  (r : http.Request) (signingKey : string) (w : world) :
  (2 <= count_space (credential r))%nat ->
  GetSessionID r signingKey w = Return (InvalidSessionID, Some ErrInvalidScheme) w.
Proof.
  intros H. rewrite GetSessionID_credential. cbv zeta.
  rewrite Split_length.
  destruct (count_space (credential r)) as [| [| n]]; [lia | lia | reflexivity].
Qed.

Lemma GetSessionID_extra_fields_witness :
  (2 <= count_space (credential (with_header "Bearer  AA==")))%nat /\
  GetSessionID (with_header "Bearer  AA==") "k" w0
    = Return (InvalidSessionID, Some ErrInvalidScheme) w0.
Proof.
  assert (H : (2 <= count_space (credential (with_header "Bearer  AA==")))%nat)
    by (vm_compute; lia).
  split; [exact H |].
  exact (GetSessionID_extra_fields (with_header "Bearer  AA==") "k" w0 H).
Defined.

Lemma ValidateID_rewrap (id signingKey : string) (w : world) :
  (do (sid, err) <- ValidateID id signingKey;
   match err with
   | Some e => ret (InvalidSessionID, Some e)
   | None => ret (sid, None)
   end) w = ValidateID id signingKey w.
Proof.
  pose proof (ValidateID_cases id signingKey w) as H. unfold bind.
  destruct (ValidateID id signingKey w) as [[sid [e |]] w' | msg | next];
    cbn [continue].
  - destruct H as (-> & _). reflexivity.
  - reflexivity.
  - reflexivity.
  - contradiction.
Qed.

Lemma GetSessionID_bearer_token
  (r : http.Request) (signingKey tok : string) (w : world) :
  credential r = String.append schemeBearer tok ->
  no_space tok = true ->
  GetSessionID r signingKey w = ValidateID tok signingKey w.
Proof.
  intros Hc Ht. rewrite GetSessionID_credential, Hc.
  change (String.append schemeBearer tok)
    with (String.append "Bearer" (String " " tok)).
  rewrite (Split_field "Bearer" tok eq_refl), (Split_no_space _ Ht).
  cbn [length nth Nat.sub String.eqb Ascii.eqb Bool.eqb negb].
  apply ValidateID_rewrap.
Qed.

(** X20: for a credential "Bearer " followed by a token without spaces,
    [GetSessionID] does exactly what [ValidateID] does on the token: the
    same result, the same error, the same panic. *)
Theorem GetSessionID_Bearer
  (r : http.Request) (signingKey tok : string) (w : world) :
  credential r = String.append schemeBearer tok ->
  no_space tok = true ->
  GetSessionID r signingKey w = ValidateID tok signingKey w.
Proof. apply GetSessionID_bearer_token. Qed.

Lemma GetSessionID_Bearer_witness :
  credential (with_query "Bearer not-base64!!")
    = String.append schemeBearer "not-base64!!" /\
  no_space "not-base64!!" = true /\
  GetSessionID (with_query "Bearer not-base64!!") "k" w0
    = ValidateID "not-base64!!" "k" w0.
Proof.
  assert (Hc : credential (with_query "Bearer not-base64!!")
               = String.append schemeBearer "not-base64!!")
    by (vm_compute; reflexivity).
  assert (Ht : no_space "not-base64!!" = true) by reflexivity.
  split; [exact Hc |]. split; [exact Ht |].
  exact (GetSessionID_Bearer (with_query "Bearer not-base64!!") "k"
           "not-base64!!" w0 Hc Ht).
Defined.

(** X21: when the Authorization header has a non-empty first value, the
    [auth] query parameter is not consulted: the result is the same
    whatever the query holds. *)
Theorem GetSessionID_header_first
  (h q q' : gmap string (list string)) (signingKey : string) (w : world) :
  http.Get h headerAuthorization <> ""%string ->
  GetSessionID (http.mkRequest h q) signingKey w
  = GetSessionID (http.mkRequest h q') signingKey w.
Proof.
  intros H. rewrite !GetSessionID_credential. unfold credential.
  cbn [http.Header http.URL_Query].
  rewrite (nonempty_length _ H). reflexivity.
Qed.

Lemma GetSessionID_header_first_witness :
  let h : gmap string (list string) := {[ headerAuthorization := ["Basic abc"%string] ]} in
  let q : gmap string (list string) := {[ paramAuthorization := ["Bearer xyz"%string] ]} in
  http.Get h headerAuthorization <> ""%string /\
  GetSessionID (http.mkRequest h q) "k" w0 = GetSessionID (http.mkRequest h ∅) "k" w0.
Proof.
  intros h q.
  assert (H : http.Get h headerAuthorization <> ""%string)
    by (vm_compute; discriminate).
  split; [exact H |].
  exact (GetSessionID_header_first h q ∅ "k" w0 H).
Defined.

Lemma credential_with_header (v : string) : credential (with_header v) = v.
Proof.
  unfold credential, with_header, http.Get. cbn [http.Header http.URL_Query].
  rewrite lookup_singleton_eq, lookup_empty. destruct v; reflexivity.
Qed.

(** X22: when the Authorization header is absent or its first value is
    empty, the first value of the [auth] query parameter is treated
    exactly like a header value. *)
Theorem GetSessionID_query_fallback
  (h q : gmap string (list string)) (signingKey : string) (w : world) :
  http.Get h headerAuthorization = ""%string ->
  GetSessionID (http.mkRequest h q) signingKey w
  = GetSessionID (with_header (http.Get q paramAuthorization)) signingKey w.
Proof.
  intros H. rewrite !GetSessionID_credential, credential_with_header.
  unfold credential. cbn [http.Header http.URL_Query]. rewrite H.
  reflexivity.
Qed.

Lemma GetSessionID_query_fallback_witness :
  let q : gmap string (list string) := {[ paramAuthorization := ["Basic abc"%string] ]} in
  http.Get ∅ headerAuthorization = ""%string /\
  GetSessionID (http.mkRequest ∅ q) "k" w0
  = GetSessionID (with_header (http.Get q paramAuthorization)) "k" w0.
Proof.
  intros q.
  assert (H : http.Get ∅ headerAuthorization = ""%string) by reflexivity.
  split; [exact H |].
  exact (GetSessionID_query_fallback ∅ q "k" w0 H).
Defined.

(** ** Beginning, reading and ending a session *)

Lemma minted_token_validates (signingKey : string) (w w' : world) (t : SID) :
  bytes_ok (rand_Reader w) ->
  NewSessionID signingKey w = Return (t, None) w' ->
  no_space t = true /\
  forall w2, ValidateID t signingKey w2 = Return (t, None) w2.
Proof.
  intros Hok Hmint. apply NewSessionID_success in Hmint.
  destruct Hmint as (_ & Hlen & -> & _). split.
  - apply EncodeToString_no_space.
  - intros w2. apply ValidateID_accepts.
    + rewrite length_firstn. lia.
    + apply bytes_ok_firstn, Hok.
Qed.

Lemma Get_Add_fresh (h : gmap string (list string)) (key v : string) :
  h !! key = None -> http.Get (http.Add h key v) key = v.
Proof.
  intros H. unfold http.Get, http.Add.
  rewrite lookup_insert_eq, H. reflexivity.
Qed.

Lemma credential_header (h q : gmap string (list string)) (c : ascii) (v : string) :
  http.Get h headerAuthorization = String c v ->
  credential (http.mkRequest h q) = String c v.
Proof.
  intros H. unfold credential. cbn [http.Header]. rewrite H. reflexivity.
Qed.

Lemma BeginSession_success {T S A : Type} {St : Store T S} {J : JSON A}
  (signingKey : string) (store : T) (sessionState : A)
  (st st' : S) (hdr hdr' : gmap string (list string)) (w w' : world) (sid : SID) :
  BeginSession signingKey store sessionState st hdr w
    = Return (sid, None, st', hdr') w' ->
  exists w1,
    NewSessionID signingKey w = Return (sid, None) w1 /\
    Store_Save J store sid sessionState st w1 = Return (None, st') w' /\
    hdr' = http.Add hdr headerAuthorization (String.append schemeBearer sid).
Proof.
  unfold BeginSession, bind.
  destruct (NewSessionID signingKey w) as [[sid0 [e |]] w1 | msg | next] eqn:Hm;
    cbn [continue]; [unfold ret; discriminate | | discriminate | discriminate].
  destruct (Store_Save J store sid0 sessionState st w1)
    as [[[e |] st1] w2 | msg | next] eqn:Hs;
    cbn [continue]; unfold ret; intros H; try discriminate.
  injection H as <- <- <- <-. exists w1. repeat split; [exact Hs].
Qed.

(** X23: the token that [BeginSession] puts into a response that had no
    Authorization header is accepted when it comes back: [GetSessionID] on
    a request with the same header value, under the same key, returns the
    SID that [BeginSession] returned. *)
Theorem BeginSession_then_GetSessionID
  {T S A : Type} {St : Store T S} {J : JSON A}
  (signingKey : string) (store : T) (sessionState : A)
  (st st' : S) (hdr hdr' q : gmap string (list string)) (w w' : world) (sid : SID) :
  bytes_ok (rand_Reader w) ->
  hdr !! headerAuthorization = None ->
  BeginSession signingKey store sessionState st hdr w
    = Return (sid, None, st', hdr') w' ->
  http.Get hdr' headerAuthorization = String.append schemeBearer sid /\
  GetSessionID (http.mkRequest hdr' q) signingKey w' = Return (sid, None) w'.
Proof.
  intros Hok Hfresh H. apply BeginSession_success in H.
  destruct H as (w1 & Hmint & _ & ->).
  destruct (minted_token_validates _ _ _ _ Hok Hmint) as [Hns Hval].
  assert (http.Get (http.Add hdr headerAuthorization (String.append schemeBearer sid))
            headerAuthorization = String.append schemeBearer sid) as Hget
    by apply (Get_Add_fresh _ _ _ Hfresh).
  split; [exact Hget |].
  rewrite (GetSessionID_bearer_token _ signingKey sid w'); [apply Hval | | exact Hns].
  apply credential_header. exact Hget.
Qed.

Lemma BeginSession_then_GetSessionID_witness :
  let t := Base64.EncodeToString (repeat 0 32 ++ GenerateRandomHMAC "k") in
  let rs := NewRedisStore 3600 in
  let st' := up {[ t := Redis.mkEntry (bytes_of_string "true")
                         (Redis.set_expiry 3600) ]} in
  let hdr' : gmap string (list string) :=
    {[ headerAuthorization := [String.append schemeBearer t] ]} in
  bytes_ok (rand_Reader w0) /\
  (∅ : gmap string (list string)) !! headerAuthorization = None /\
  BeginSession "k" rs true (up ∅) ∅ w0 = Return (t, None, st', hdr') (mkWorld [] t) /\
  http.Get hdr' headerAuthorization = String.append schemeBearer t /\
  GetSessionID (http.mkRequest hdr' ∅) "k" (mkWorld [] t)
    = Return (t, None) (mkWorld [] t).
Proof.
  intros t rs st' hdr'.
  assert (Hok : bytes_ok (rand_Reader w0))
    by (apply bytes_ok_repeat; unfold is_byte; lia).
  assert (Hfresh : (∅ : gmap string (list string)) !! headerAuthorization = None)
    by reflexivity.
  assert (Hb : BeginSession "k" rs true (up ∅) ∅ w0
               = Return (t, None, st', hdr') (mkWorld [] t))
    by (vm_compute; reflexivity).
  split; [exact Hok |]. split; [exact Hfresh |]. split; [exact Hb |].
  exact (BeginSession_then_GetSessionID "k" rs true (up ∅) st' ∅ hdr' ∅
           w0 (mkWorld [] t) t Hok Hfresh Hb).
Defined.

Lemma BeginSession_computes {T S A : Type} {St : Store T S} {J : JSON A}
  (signingKey : string) (store : T) (sessionState : A)
  (st st' : S) (hdr : gmap string (list string)) (w w' : world) (sid : SID) :
  NewSessionID signingKey w = Return (sid, None) w' ->
  Store_Save J store sid sessionState st w' = Return (None, st') w' ->
  BeginSession signingKey store sessionState st hdr w
  = Return (sid, None, st',
            http.Add hdr headerAuthorization (String.append schemeBearer sid)) w'.
Proof.
  intros Hm Hs. unfold BeginSession, bind. rewrite Hm. cbn [continue].
  rewrite Hs. reflexivity.
Qed.

Lemma Store_Save_redis {A : Type} {J : JSON A}
  (rs : RedisStore) (sid : SID) (sessionState : A)
  (st st' : Redis.server) (w : world) :
  Save rs sid sessionState st = (None, st') ->
  Store_Save J rs sid sessionState st w = Return (None, st') w.
Proof. intros H. cbn [Store_Save RedisStore_Store]. rewrite H. reflexivity. Qed.

Lemma Save_unreachable {A : Type} {J : JSON A}
  (rs : RedisStore) (sid : SID) (sessionState : A)
  (d : gmap string Redis.entry) (j : list Z) :
  Marshal sessionState = (j, None) ->
  Save rs sid sessionState (down d) = (None, down d).
Proof. intros Hm. unfold Save. rewrite Hm. reflexivity. Qed.

Lemma GetState_valid {A : Type} {J : JSON A}
  (r : http.Request) (signingKey : string) (rs : RedisStore) (out : A)
  (st : Redis.server) (w : world) (sid : SID) :
  GetSessionID r signingKey w = Return (sid, None) w ->
  GetState r signingKey rs out st w =
  let '(err, v, st') := Get rs sid out st in
  match err with
  | Some e => Return (InvalidSessionID, Some e, v, st') w
  | None => Return (sid, None, v, st') w
  end.
Proof.
  intros H. unfold GetState, bind. rewrite H. cbn [continue].
  destruct (Get rs sid out st) as [[[e |] v] st']; reflexivity.
Qed.

Lemma EndSession_valid
  (r : http.Request) (signingKey : string) (rs : RedisStore)
  (st : Redis.server) (w : world) (sid : SID) :
  GetSessionID r signingKey w = Return (sid, None) w ->
  EndSession r signingKey rs st w
  = Return (sid, None, snd (Delete rs sid st)) w.
Proof.
  intros H. unfold EndSession, bind. rewrite H.
  cbn [continue Store_Delete RedisStore_Store]. unfold ret. cbn [continue].
  unfold Delete. destruct (Redis.ClientDel (getRedisKey sid) st). reflexivity.
Qed.



(** X25: when the server cannot be reached, [BeginSession] still succeeds:
    it returns a token and adds the Authorization header although nothing
    was stored. *)
Theorem BeginSession_unreachable {A : Type} {J : JSON A}
  (signingKey : string) (rs : RedisStore) (sessionState : A)
  (d : gmap string Redis.entry) (hdr : gmap string (list string))
  (w : world) (j : list Z) :
  signingKey <> ""%string ->
  (32 <= length (rand_Reader w))%nat ->
  Marshal sessionState = (j, None) ->
  exists sid w',
    sid <> InvalidSessionID /\
    BeginSession signingKey rs sessionState (down d) hdr w
    = Return (sid, None, down d,
              http.Add hdr headerAuthorization (String.append schemeBearer sid)) w'.
Proof.
  intros Hk Hlen Hm.
  pose proof (NewSessionID_mints signingKey w Hk Hlen) as Hmint. cbv zeta in Hmint.
  set (t := Base64.EncodeToString _) in Hmint.
  set (w' := mkWorld _ t) in Hmint.
  exists t, w'. split.
  - intros E. apply (f_equal String.length) in E. subst t.
    rewrite EncodeToString_length, length_app, length_firstn,
      GenerateRandomHMAC_length in E.
    unfold idLength in *.
    replace (32 `min` length (rand_Reader w))%nat with 32%nat in E by lia.
    discriminate.
  - apply BeginSession_computes; [exact Hmint |].
    apply Store_Save_redis, (Save_unreachable rs t sessionState d j Hm).
Qed.

Lemma BeginSession_unreachable_witness :
  "k"%string <> ""%string /\
  (32 <= length (rand_Reader w0))%nat /\
  Marshal true = (bytes_of_string "true", None) /\
  exists sid w',
    sid <> InvalidSessionID /\
    BeginSession "k" (NewRedisStore 3600) true (down ∅) ∅ w0
    = Return (sid, None, down ∅,
              http.Add ∅ headerAuthorization (String.append schemeBearer sid)) w'.
Proof.
  assert (Hk : "k"%string <> ""%string) by discriminate.
  assert (Hlen : (32 <= length (rand_Reader w0))%nat) by (vm_compute; lia).
  assert (Hm : Marshal true = (bytes_of_string "true", None)) by reflexivity.
  split; [exact Hk |]. split; [exact Hlen |]. split; [exact Hm |].
  exact (BeginSession_unreachable "k" (NewRedisStore 3600) true ∅ ∅ w0 _ Hk Hlen Hm).
Defined.

(** X26: ending a session removes its state but does not invalidate its
    token.  After [BeginSession] on a reachable server, [EndSession] with
    the issued header returns the SID and deletes the entry; [GetState]
    with the same header then fails with [redis.Nil], while [GetSessionID]
    still accepts the token. *)
Theorem EndSession_after_BeginSession {A : Type} {J : JSON A}
  (signingKey : string) (rs : RedisStore) (sessionState out : A)
  (d : gmap string Redis.entry) (hdr q : gmap string (list string))
  (w : world) (j : list Z) :
  signingKey <> ""%string ->
  (32 <= length (rand_Reader w))%nat ->
  bytes_ok (rand_Reader w) ->
  hdr !! headerAuthorization = None ->
  Marshal sessionState = (j, None) ->
  exists sid st' hdr' w',
    BeginSession signingKey rs sessionState (up d) hdr w
      = Return (sid, None, st', hdr') w' /\
    let r := http.mkRequest hdr' q in
    let ended := up (delete (getRedisKey sid) d) in
    EndSession r signingKey rs st' w' = Return (sid, None, ended) w' /\
    GetState r signingKey rs out ended w'
      = Return (InvalidSessionID, Some RedisNil, out, ended) w' /\
    GetSessionID r signingKey w' = Return (sid, None) w'.
Proof.
  intros Hk Hlen Hok Hfresh Hm.
  pose proof (NewSessionID_mints signingKey w Hk Hlen) as Hmint. cbv zeta in Hmint.
  set (t := Base64.EncodeToString _) in Hmint.
  set (w' := mkWorld _ t) in Hmint.
  pose proof (BeginSession_computes signingKey rs sessionState (up d) _ hdr w w' t
                Hmint (Store_Save_redis rs t sessionState _ _ w'
                         (Save_reachable rs t sessionState d j Hm))) as Hb.
  eexists t, _, _, w'. split; [exact Hb |].
  destruct (minted_token_validates _ _ _ _ Hok Hmint) as [Hns Hval].
  assert (forall q', GetSessionID
            (http.mkRequest (http.Add hdr headerAuthorization
                               (String.append schemeBearer t)) q')
            signingKey w' = Return (t, None) w') as Hget.
  { intros q'.
    rewrite (GetSessionID_bearer_token _ signingKey t w'); [apply Hval | | exact Hns].
    apply credential_header, Get_Add_fresh, Hfresh. }
  cbv zeta. split; [| split].
  - rewrite (EndSession_valid _ _ _ _ _ t (Hget q)).
    unfold Delete, Redis.ClientDel, Redis.run, up.
    cbn [Redis.reachable Redis.db Redis.process snd].
    rewrite delete_insert_eq. reflexivity.
  - rewrite (GetState_valid _ _ _ _ _ _ t (Hget q)).
    rewrite Get_absent by apply lookup_delete_eq. reflexivity.
  - apply Hget.
Qed.

Lemma EndSession_after_BeginSession_witness :
  "k"%string <> ""%string /\
  (32 <= length (rand_Reader w0))%nat /\
  bytes_ok (rand_Reader w0) /\
  (∅ : gmap string (list string)) !! headerAuthorization = None /\
  Marshal true = (bytes_of_string "true", None) /\
  exists sid st' hdr' w',
    BeginSession "k" (NewRedisStore 3600) true (up ∅) ∅ w0
      = Return (sid, None, st', hdr') w' /\
    let r := http.mkRequest hdr' ∅ in
    let ended := up (delete (getRedisKey sid) ∅) in
    EndSession r "k" (NewRedisStore 3600) st' w' = Return (sid, None, ended) w' /\
    GetState r "k" (NewRedisStore 3600) false ended w'
      = Return (InvalidSessionID, Some RedisNil, false, ended) w' /\
    GetSessionID r "k" w' = Return (sid, None) w'.
Proof.
  assert (Hk : "k"%string <> ""%string) by discriminate.
  assert (Hlen : (32 <= length (rand_Reader w0))%nat) by (vm_compute; lia).
  assert (Hok : bytes_ok (rand_Reader w0))
    by (apply bytes_ok_repeat; unfold is_byte; lia).
  assert (Hfresh : (∅ : gmap string (list string)) !! headerAuthorization = None)
    by reflexivity.
  assert (Hm : Marshal true = (bytes_of_string "true", None)) by reflexivity.
  split; [exact Hk |]. split; [exact Hlen |]. split; [exact Hok |].
  split; [exact Hfresh |]. split; [exact Hm |].
  exact (EndSession_after_BeginSession "k" (NewRedisStore 3600) true false ∅ ∅ ∅
           w0 _ Hk Hlen Hok Hfresh Hm).
Defined.



(** X28: when the state cannot be marshalled, [BeginSession] on the Redis
    store returns the marshalling error and leaves the server and the
    response alone, but the token has been minted all the same: the entropy
    is used up and [generatedSID] names a session that was never begun. *)
Theorem BeginSession_marshal_failure {A : Type} {J : JSON A}
  (signingKey : string) (rs : RedisStore) (sessionState : A)
  (st : Redis.server) (hdr : gmap string (list string))
  (w : world) (j : list Z) (e : error) :
  signingKey <> ""%string ->
  (32 <= length (rand_Reader w))%nat ->
  Marshal sessionState = (j, Some e) ->
  BeginSession signingKey rs sessionState st hdr w
  = Return (InvalidSessionID, Some e, st, hdr)
      (mkWorld (skipn 32 (rand_Reader w))
         (Base64.EncodeToString
            (firstn 32 (rand_Reader w) ++ GenerateRandomHMAC signingKey))).
Proof.
  intros Hk Hlen Hm. unfold BeginSession, bind.
  rewrite (NewSessionID_mints signingKey w Hk Hlen).
  cbn [Store_Save RedisStore_Store]. unfold Save. rewrite Hm. reflexivity.
Qed.

Lemma BeginSession_marshal_failure_witness :
  "k"%string <> ""%string /\
  (32 <= length (rand_Reader w0))%nat /\
  Marshal FuncValue = ([], Some JSONError) /\
  BeginSession "k" (NewRedisStore 3600) FuncValue (up ∅) ∅ w0
  = Return (InvalidSessionID, Some JSONError, up ∅, ∅)
      (mkWorld (skipn 32 (rand_Reader w0))
         (Base64.EncodeToString
            (firstn 32 (rand_Reader w0) ++ GenerateRandomHMAC "k"))).
Proof.
  assert (Hk : "k"%string <> ""%string) by discriminate.
  assert (Hlen : (32 <= length (rand_Reader w0))%nat) by (vm_compute; lia).
  assert (Hm : Marshal FuncValue = ([], Some JSONError)) by reflexivity.
  split; [exact Hk |]. split; [exact Hlen |]. split; [exact Hm |].
  exact (BeginSession_marshal_failure "k" (NewRedisStore 3600) FuncValue (up ∅) ∅
           w0 [] JSONError Hk Hlen Hm).
Defined.

(** X29: a request whose credential is rejected touches no session: when
    [GetSessionID] returns an error, [GetState] and [EndSession] return
    [InvalidSessionID] with that error, the caller's state is unchanged and
    the store is neither read, refreshed nor written. *)
Theorem rejected_request_leaves_store {T S A : Type} {St : Store T S} {J : JSON A}
  (r : http.Request) (signingKey : string) (rs : RedisStore) (store : T)
  (out : A) (rst : Redis.server) (st : S) (w w' : world) (sid : SID) (e : error) :
  GetSessionID r signingKey w = Return (sid, Some e) w' ->
  GetState r signingKey rs out rst w
    = Return (InvalidSessionID, Some e, out, rst) w' /\
  EndSession r signingKey store st w = Return (InvalidSessionID, Some e, st) w'.
Proof.
  intros H. unfold GetState, EndSession, bind. rewrite H. split; reflexivity.
Qed.

Lemma rejected_request_leaves_store_witness :
  let d : gmap string Redis.entry :=
    {[ "Basic"%string := Redis.mkEntry (bytes_of_string "true") (Some 5) ]} in
  GetSessionID (with_header "Basic abc") "k" w0
    = Return (InvalidSessionID, Some ErrInvalidScheme) w0 /\
  GetState (with_header "Basic abc") "k" (NewRedisStore 3600) false (up d) w0
    = Return (InvalidSessionID, Some ErrInvalidScheme, false, up d) w0 /\
  EndSession (with_header "Basic abc") "k" (NewRedisStore 3600) (up d) w0
    = Return (InvalidSessionID, Some ErrInvalidScheme, up d) w0.
Proof.
  intros d.
  assert (H : GetSessionID (with_header "Basic abc") "k" w0
              = Return (InvalidSessionID, Some ErrInvalidScheme) w0)
    by (vm_compute; reflexivity).
  split; [exact H |].
  exact (rejected_request_leaves_store (with_header "Basic abc") "k"
           (NewRedisStore 3600) (NewRedisStore 3600) false (up d) (up d)
           w0 w0 InvalidSessionID ErrInvalidScheme H).
Defined.

(** X30: a Bearer token that decodes to fewer than 32 bytes makes
    [GetSessionID] panic, and with it [GetState] and [EndSession]: the
    panic of [ValidateID] is not recovered anywhere on the way up. *)
Theorem short_token_panics_request {A : Type} {J : JSON A}
  (r : http.Request) (signingKey tok : string) (d : list Z)
  (rs : RedisStore) (out : A) (st : Redis.server) (w : world) :
  credential r = String.append schemeBearer tok ->
  no_space tok = true ->
  DecodeSessionID tok = (d, None) ->
  (length d < 32)%nat ->
  GetSessionID r signingKey w = Panic "slice bounds out of range" /\
  GetState r signingKey rs out st w = Panic "slice bounds out of range" /\
  EndSession r signingKey rs st w = Panic "slice bounds out of range".
Proof.
  intros Hc Hns Hd Hlen.
  assert (GetSessionID r signingKey w = Panic "slice bounds out of range") as Hp.
  { rewrite (GetSessionID_bearer_token r signingKey tok w Hc Hns).
    apply (ValidateID_short tok signingKey d w); [| exact Hlen].
    apply DecodeSessionID_ok, Hd. }
  split; [exact Hp |].
  unfold GetState, EndSession, bind. rewrite Hp. split; reflexivity.
Qed.

Lemma short_token_panics_request_witness :
  credential (with_header "Bearer AA==") = String.append schemeBearer "AA==" /\
  no_space "AA==" = true /\
  DecodeSessionID "AA==" = ([0], None) /\
  (length [0] < 32)%nat /\
  GetSessionID (with_header "Bearer AA==") "k" w0
    = Panic "slice bounds out of range" /\
  GetState (with_header "Bearer AA==") "k" (NewRedisStore 3600) false (up ∅) w0
    = Panic "slice bounds out of range" /\
  EndSession (with_header "Bearer AA==") "k" (NewRedisStore 3600) (up ∅) w0
    = Panic "slice bounds out of range".
Proof.
  assert (Hc : credential (with_header "Bearer AA==")
               = String.append schemeBearer "AA==") by (vm_compute; reflexivity).
  assert (Hns : no_space "AA==" = true) by reflexivity.
  assert (Hd : DecodeSessionID "AA==" = ([0], None)) by (vm_compute; reflexivity).
  assert (Hlen : (length [0] < 32)%nat) by (vm_compute; lia).
  split; [exact Hc |]. split; [exact Hns |]. split; [exact Hd |].
  split; [exact Hlen |].
  exact (short_token_panics_request (with_header "Bearer AA==") "k" "AA==" [0]
           (NewRedisStore 3600) false (up ∅) w0 Hc Hns Hd Hlen).
Defined.
